(** * gosdt-guesses: the tree model of [libgosdt/src/model.cpp]

    A shallow embedding of [Model] (leaves and binary splits), of its
    canonicalization ([_partitions], [partitions], [hash], [operator==]),
    of [loss] and [complexity], and of the two document rewrites
    [summarize] / [intersect] and [translate_json], which work on
    [nlohmann::json] values. *)

From Stdlib Require Import ZArith Lia SpecFloat.
From stdpp Require Import gmap strings list fin_maps sorting.

Set Warnings "-register-all".
Local Open Scope Z_scope.

(** ** Machine numbers *)

(** [size_t] is taken as a 64-bit unsigned word and [int] as a 32-bit
    two's complement word; both live in [Z] with the wrap-around spelled
    out. *)
Definition wrap64 (z : Z) : Z := z mod 2 ^ 64.

Definition INT_MIN : Z := - 2 ^ 31.
Definition INT_MAX : Z := 2 ^ 31 - 1.

(** Conversion of an integer value to [int]: reduction modulo [2^32] into
    the range [INT_MIN .. INT_MAX]. *)
Definition to_int (z : Z) : Z := (z + 2 ^ 31) mod 2 ^ 32 - 2 ^ 31.

(** C++ [float] is IEEE 754 binary32 and [double] binary64; arithmetic on
    them is the Standard Library's executable specification, rounding to
    nearest even. *)
Definition float := spec_float.
Definition float_add : float -> float -> float := SFadd 24 128.
Definition float_zero : float := S754_zero false.

Definition double := spec_float.

(** The conversion of a [float] to [double] (it is exact). *)
Definition double_of_float (f : float) : double :=
  match f with
  | S754_finite s m e => binary_normalize 53 1024 (if s then Z.neg m else Z.pos m) e s
  | _ => f
  end.

(** ** The row-set interface

    [Bitmask] is declared outside [model.cpp]; the model only consumes a
    bitmask's own hash and its [operator!=], so these two are the
    interface, and everything below is generic in it. *)
Class BitmaskOps (Bitmask : Type) := {
  bitmask_hash : Bitmask -> Z;
  bitmask_neq : Bitmask -> Bitmask -> bool
}.

(** [operator!=] of a row-set never separates a row-set from itself. *)
Class BitmaskLaws (Bitmask : Type) `{BitmaskOps Bitmask} : Prop := {
  bitmask_neq_irrefl : forall b : Bitmask, bitmask_neq b b = false
}.

(** ** Model

    The class has one [terminal] flag and two constructors that set it:
    the leaf constructor fills [binary_target], [_loss], [_complexity] and
    [capture_set]; the split constructor fills [binary_feature], [feature],
    [negative] and [positive].  The two shapes are the two constructors of
    the inductive type.  The [identifier] and the translator tables, set
    after construction, are read by none of the operations below. *)
Inductive Model (Bitmask : Type) : Type :=
| Leaf (binary_target : Z) (_loss _complexity : float) (capture_set : Bitmask)
| Split (binary_feature feature : Z) (negative positive : Model Bitmask).

Arguments Leaf {Bitmask} binary_target _loss _complexity capture_set.
Arguments Split {Bitmask} binary_feature feature negative positive.

Section Canonicalization.
Context {Bitmask : Type} `{BitmaskOps Bitmask}.

(** [Model::_partitions]: the vector [addresses] is threaded through the
    traversal; a leaf pushes its capture set, a split visits [negative]
    and then [positive]. *)
Fixpoint _partitions (m : Model Bitmask) (addresses : list Bitmask) : list Bitmask :=
  match m with
  | Leaf _ _ _ capture_set => addresses ++ [capture_set]
  | Split _ _ negative positive => _partitions positive (_partitions negative addresses)
  end.

(** [Model::partitions]: collects [_partitions] into a fresh vector and
    pushes its elements, in order, onto the caller's vector.  (The sorting
    by first set bit is commented out in the source.) *)
Definition partitions (m : Model Bitmask) (sorted_addresses : list Bitmask) : list Bitmask :=
  let addresses := _partitions m [] in
  fold_left (fun out it => out ++ [it]) addresses sorted_addresses.

(** The body of the loop of [Model::hash]:
    [seed ^= h + 0x9e3779b9 + (seed << 6) + (seed >> 2)] on [size_t]. *)
Definition hash_step (seed h : Z) : Z :=
  Z.lxor seed (wrap64 (h + 0x9e3779b9 + wrap64 (Z.shiftl seed 6) + Z.shiftr seed 2)).

Fixpoint hash_loop (it : list Bitmask) (seed : Z) : Z :=
  match it with
  | [] => seed
  | b :: it' => hash_loop it' (hash_step seed (bitmask_hash b))
  end.

(** [Model::hash]. *)
Definition hash (m : Model Bitmask) : Z :=
  let addresses := partitions m [] in
  let seed := wrap64 (Z.of_nat (length addresses)) in
  hash_loop addresses seed.

(** The [while] loop of [Model::operator==]: both iterators advance
    together until one reaches its end or two masks differ. *)
Fixpoint masks_loop (iterator other_iterator : list Bitmask) : bool :=
  match iterator, other_iterator with
  | a :: iterator', b :: other_iterator' =>
      if bitmask_neq a b then false else masks_loop iterator' other_iterator'
  | _, _ => true
  end.

(** [Model::operator==]. *)
Definition operator_eq (m other : Model Bitmask) : bool :=
  if negb (hash m =? hash other) then false
  else
    let masks := partitions m [] in
    let other_masks := partitions other [] in
    if negb (length masks =? length other_masks)%nat then false
    else masks_loop masks other_masks.

(** [Model::loss] and [Model::complexity]. *)
Fixpoint loss (m : Model Bitmask) : float :=
  match m with
  | Leaf _ _loss _ _ => _loss
  | Split _ _ negative positive => float_add (loss negative) (loss positive)
  end.

Fixpoint complexity (m : Model Bitmask) : float :=
  match m with
  | Leaf _ _ _complexity _ => _complexity
  | Split _ _ negative positive => float_add (complexity negative) (complexity positive)
  end.

(** *** Reference definitions, following the specification's wording *)

(** The leaves of a tree met by a depth-first walk, negative child first. *)
Fixpoint dfs_leaves (m : Model Bitmask) : list (Model Bitmask) :=
  match m with
  | Leaf _ _ _ _ => [m]
  | Split _ _ negative positive => dfs_leaves negative ++ dfs_leaves positive
  end.

Definition leaf_capture_set (m : Model Bitmask) : option Bitmask :=
  match m with Leaf _ _ _ c => Some c | Split _ _ _ _ => None end.

Definition dfs_capture_sets (m : Model Bitmask) : list Bitmask :=
  omap leaf_capture_set (dfs_leaves m).

(** The hash-combine step in arithmetic form. *)
Definition hash_combine (seed h : Z) : Z :=
  Z.lxor seed ((h + 2654435769 + seed * 64 + seed / 4) mod 2 ^ 64).

(** The loss and the complexity stored in each leaf, in the order of
    [partitions]. *)
Definition leaf_loss (m : Model Bitmask) : option float :=
  match m with Leaf _ l _ _ => Some l | Split _ _ _ _ => None end.

Definition leaf_complexity (m : Model Bitmask) : option float :=
  match m with Leaf _ _ c _ => Some c | Split _ _ _ _ => None end.

Definition leaf_losses (m : Model Bitmask) : list float :=
  omap leaf_loss (dfs_leaves m).

Definition leaf_complexities (m : Model Bitmask) : list float :=
  omap leaf_complexity (dfs_leaves m).

(** Summing a sequence of floats from left to right, starting from zero,
    and starting from its first element. *)
Definition float_sum (l : list float) : float := fold_left float_add l float_zero.

Definition float_sum_from_first (l : list float) : float :=
  match l with
  | [] => float_zero
  | x :: l' => fold_left float_add l' x
  end.

(** A tree in which the positive child of every split is a leaf. *)
Fixpoint left_comb (m : Model Bitmask) : bool :=
  match m with
  | Leaf _ _ _ _ => true
  | Split _ _ negative (Leaf _ _ _ _) => left_comb negative
  | Split _ _ _ (Split _ _ _ _) => false
  end.

End Canonicalization.

(** ** JSON documents

    The fragment of [nlohmann::json] that [model.cpp] uses.  Values are
    copied on assignment, so a document is a plain tree.  Integers of both
    kinds (signed and unsigned) are one case; objects are finite maps
    ordered by key. *)
Inductive json : Type :=
| JNull
| JBool (b : bool)
| JInt (z : Z)
| JFloat (f : double)
| JString (s : string)
| JArray (l : list json)
| JObject (m : gmap string json).

(** What a failing operation does: a C++ exception ([type_error] from
    the JSON library, [out_of_range] from [std::vector::at]), or undefined
    behaviour (reading an uninitialised [int], signed overflow). *)
Inductive exception : Type := type_error | out_of_range.

Inductive result (A : Type) : Type :=
| Ok (a : A)
| Throw (e : exception)
| Undefined.

Arguments Ok {A} a.
Arguments Throw {A} e.
Arguments Undefined {A}.

#[global] Instance result_ret : MRet result := fun A a => Ok a.
#[global] Instance result_bind : MBind result := fun A B f r =>
  match r with
  | Ok a => f a
  | Throw e => Throw e
  | Undefined => Undefined
  end.

Definition is_null (j : json) : bool :=
  match j with JNull => true | _ => false end.

(** [j.contains(key)]: only an object contains keys. *)
Definition contains (key : string) (j : json) : bool :=
  match j with
  | JObject m => bool_decide (is_Some (m !! key))
  | _ => false
  end.

(** [node[key]] on an object: the value, [null] for a key that is not
    there yet (the access then inserts it, see [touch]). *)
Definition get (key : string) (m : gmap string json) : json :=
  default JNull (m !! key).

Definition touch (key : string) (m : gmap string json) : gmap string json :=
  match m !! key with
  | Some _ => m
  | None => <[key := JNull]> m
  end.

(** The value read by [j[key]] on any document: [null] turns into an
    object, any other non-object throws. *)
Definition at_key (j : json) (key : string) : result json :=
  match j with
  | JNull => Ok JNull
  | JObject m => Ok (get key m)
  | _ => Throw type_error
  end.

(** The value read by [j[idx]]: [null] turns into an array, an array is
    filled up with [null] up to [idx], any other value throws. *)
Definition at_idx (j : json) (idx : nat) : result json :=
  match j with
  | JNull => Ok JNull
  | JArray l => Ok (default JNull (l !! idx))
  | _ => Throw type_error
  end.

(** [j[idx] = v]. *)
Definition set_idx (j : json) (idx : nat) (v : json) : result json :=
  match j with
  | JNull => Ok (JArray (replicate idx JNull ++ [v]))
  | JArray l =>
      Ok (JArray (if bool_decide (idx < length l)%nat then <[idx := v]> l
                  else l ++ replicate (idx - length l) JNull ++ [v]))
  | _ => Throw type_error
  end.

(** The entries of an object in the order of their keys. *)
Definition sorted_items {A : Type} (m : gmap string A) : list (string * A) :=
  merge_sort (fun p q => Is_true (String.leb p.1 q.1)) (map_to_list m).

(** The values a [begin()] .. [end()] loop over [j] visits. *)
Definition json_items (j : json) : list json :=
  match j with
  | JNull => []
  | JArray l => l
  | JObject m => (sorted_items m).*2
  | _ => [j]
  end.

(** A braced list [{a, b, ...}] of documents: an object when every
    element is a two-element array that starts with a string, an array
    otherwise. *)
Definition as_pair (j : json) : option (string * json) :=
  match j with
  | JArray [JString k; v] => Some (k, v)
  | _ => None
  end.

Definition init_list (l : list json) : json :=
  match mapM as_pair l with
  | Some kvs => JObject (list_to_map kvs)
  | None => JArray l
  end.

(** [static_cast<double>] of an integer. *)
Definition double_of_int (z : Z) : double := binary_normalize 53 1024 z 0 false.

(** [operator==] of the library: integers and floats compare by value
    across kinds, everything else by kind and content. *)
Fixpoint json_eqb (a b : json) {struct a} : bool :=
  match a, b with
  | JNull, JNull => true
  | JBool x, JBool y => Bool.eqb x y
  | JInt x, JInt y => x =? y
  | JFloat x, JFloat y => SFeqb x y
  | JInt x, JFloat y => SFeqb (double_of_int x) y
  | JFloat x, JInt y => SFeqb x (double_of_int y)
  | JString x, JString y => String.eqb x y
  | JArray l1, JArray l2 =>
      (fix go (l1 l2 : list json) : bool :=
         match l1, l2 with
         | [], [] => true
         | x :: l1', y :: l2' => json_eqb x y && go l1' l2'
         | _, _ => false
         end) l1 l2
  | JObject m1, JObject m2 =>
      bool_decide (dom m1 = dom m2) &&
      map_fold (fun k v acc =>
                  acc && match m2 !! k with Some w => json_eqb v w | None => false end)
               true m1
  | _, _ => false
  end.

(** The rank of a kind in the library's ordering of unlike kinds. *)
Definition type_order (j : json) : Z :=
  match j with
  | JNull => 0
  | JBool _ => 1
  | JInt _ | JFloat _ => 2
  | JObject _ => 3
  | JArray _ => 4
  | JString _ => 5
  end.

(** One step of [std::lexicographical_compare], for both directions at
    once: [(a < b, b < a)] from the heads' comparison and the tails'. *)
Definition lex_step (head tail : bool * bool) : bool * bool :=
  ((if head.1 then true else if head.2 then false else tail.1),
   (if head.2 then true else if head.1 then false else tail.2)).

Fixpoint lex_objects (l1 : list (string * (json -> bool * bool))) (l2 : list (string * json))
  : bool * bool :=
  match l1, l2 with
  | [], [] => (false, false)
  | [], _ :: _ => (true, false)
  | _ :: _, [] => (false, true)
  | (k1, c) :: l1', (k2, v2) :: l2' =>
      let kl := String.ltb k1 k2 in
      let kg := String.ltb k2 k1 in
      lex_step (kl || (negb kg && (c v2).1), kg || (negb kl && (c v2).2))
               (lex_objects l1' l2')
  end.

(** [json_cmp a b] is [(a < b, b < a)] for the library's [operator<]. *)
Fixpoint json_cmp (a b : json) {struct a} : bool * bool :=
  match a, b with
  | JNull, JNull => (false, false)
  | JBool x, JBool y => (negb x && y, negb y && x)
  | JInt x, JInt y => (x <? y, y <? x)
  | JFloat x, JFloat y => (SFltb x y, SFltb y x)
  | JInt x, JFloat y => (SFltb (double_of_int x) y, SFltb y (double_of_int x))
  | JFloat x, JInt y => (SFltb x (double_of_int y), SFltb (double_of_int y) x)
  | JString x, JString y => (String.ltb x y, String.ltb y x)
  | JArray l1, JArray l2 =>
      (fix go (l1 l2 : list json) : bool * bool :=
         match l1, l2 with
         | [], [] => (false, false)
         | [], _ :: _ => (true, false)
         | _ :: _, [] => (false, true)
         | x :: l1', y :: l2' => lex_step (json_cmp x y) (go l1' l2')
         end) l1 l2
  | JObject m1, JObject m2 =>
      lex_objects (sorted_items (json_cmp <$> m1)) (sorted_items m2)
  | _, _ => (type_order a <? type_order b, type_order b <? type_order a)
  end.

Definition json_lt (a b : json) : bool := (json_cmp a b).1.

(** [std::max(a, b)] and [std::min(a, b)] on documents. *)
Definition json_max (a b : json) : json := if json_lt a b then b else a.
Definition json_min (a b : json) : json := if json_lt b a then b else a.

(** ** The N-ary summarizer *)

(** The object [{{"in", guard}, {"then", subtree}}]. *)
Definition branch (guard subtree : json) : json :=
  JObject (<["in" := guard]> (<["then" := subtree]> ∅)).

(** [child[key]] once [child.contains(...)] has shown it to be an object. *)
Definition get_of (j : json) (key : string) : json :=
  match j with
  | JObject m => get key m
  | _ => JNull
  end.

(** [Model::intersect]: [dest] is updated in place and returned.  ([src]
    is a two-element array at every call, so reading it changes nothing.) *)
Definition intersect (src dest : json) : result json :=
  s0 ← at_idx src 0;
  dest ← (if negb (is_null s0) then
            d0 ← at_idx dest 0;
            if negb (is_null d0) then set_idx dest 0 (json_max s0 d0)
            else set_idx dest 0 s0
          else Ok dest);
  s1 ← at_idx src 1;
  if negb (is_null s1) then
    d1 ← at_idx dest 1;
    if negb (is_null d1) then set_idx dest 1 (json_min s1 d1)
    else set_idx dest 1 s1
  else Ok dest.

(** The body of the inner loop of [Model::summarize]: what one element
    [sub] of [child["children"]] adds to [new_children]. *)
Definition promote (integral rational categorical : bool) (condition sub : json)
  : result (list json) :=
  subcondition ← at_key sub "in";
  grandchild ← at_key sub "then";
  if integral || rational then
    s0 ← at_idx subcondition 0;
    s1 ← at_idx subcondition 1;
    promoted_condition ← intersect condition (init_list [s0; s1]);
    Ok [branch promoted_condition grandchild]
  else if categorical then Ok [branch subcondition grandchild]
  else Ok [].

(** The body of the outer loop: what one element [it] of
    [node["children"]] adds to [new_children]. *)
Definition flatten (integral rational categorical : bool) (feature it : json)
  : result (list json) :=
  condition ← at_key it "in";
  child ← at_key it "then";
  if contains "feature" child && json_eqb (get_of child "feature") feature then
    promoted ← mapM (promote integral rational categorical condition)
                    (json_items (get_of child "children"));
    Ok (concat promoted)
  else Ok [branch condition child].

(** [Model::summarize] on a split node, after both subtrees have been
    summarized in place. *)
Definition summarize_split (m : gmap string json) : result json :=
  let m := touch "type" m in
  let integral := json_eqb (get "type" m) (JString "integral") in
  let rational := json_eqb (get "type" m) (JString "rational") in
  let categorical := json_eqb (get "type" m) (JString "categorical") in
  let child0 : gmap string json := <["then" := get "true" m]> ∅ in
  let child1 : gmap string json := <["then" := get "false" m]> ∅ in
  let reference := get "reference" m in
  let '(child0, child1) :=
    if integral then
      (<["in" := init_list [reference; JNull]]> child0,
       <["in" := init_list [JNull; reference]]> child1)
    else if rational then
      (<["in" := init_list [reference; JNull]]> child0,
       <["in" := init_list [JNull; reference]]> child1)
    else if categorical then
      (<["in" := reference]> child0, <["in" := JString "default"]> child1)
    else (child0, child1) in
  let m := delete "false" (delete "true" (delete "relation" (delete "reference" m))) in
  let feature := get "feature" m in
  from0 ← flatten integral rational categorical feature (JObject child0);
  from1 ← flatten integral rational categorical feature (JObject child1);
  Ok (JObject (<["children" := JArray (from0 ++ from1)]> m)).

(** [Model::summarize].  The two recursive calls are on [node["true"]]
    and [node["false"]]; a key that is missing is created as [null], on
    which the call does nothing. *)
Fixpoint summarize (node : json) : result json :=
  match node with
  | JObject m =>
      if bool_decide (is_Some (m !! "feature")) then
        let rec := summarize <$> m in
        true_ ← default (Ok JNull) (rec !! "true");
        false_ ← default (Ok JNull) (rec !! "false");
        summarize_split (<["false" := false_]> (<["true" := true_]> m))
      else Ok node
  | _ => Ok node
  end.

(** ** The index translator *)

(** [translation_type] is declared outside [model.cpp]; it is a sequence
    of [int] values. *)
Definition translation_type := list Z.

(** [std::distance(v.begin(), std::find(v.begin(), v.end(), x))]: the
    position of the first [x], the length of [v] when there is none. *)
Fixpoint find_distance (v : translation_type) (x : Z) : nat :=
  match v with
  | [] => 0%nat
  | y :: v' => if y =? x then 0%nat else S (find_distance v' x)
  end.

(** [std::find(v.begin(), v.end(), x) != v.end()]. *)
Definition found (v : translation_type) (x : Z) : bool :=
  bool_decide (find_distance v x < length v)%nat.

(** [v.at(i)]. *)
Definition vector_at (v : translation_type) (i : nat) : result Z :=
  match v !! i with
  | Some x => Ok x
  | None => Throw out_of_range
  end.

(** [static_cast<int>] of a [double]: the value truncated towards zero,
    undefined when that is no [int]. *)
Definition int_of_double (f : double) : result Z :=
  match f with
  | S754_zero _ => Ok 0
  | S754_finite s m e =>
      let v := if 0 <=? e then Z.pos m * 2 ^ e else Z.pos m / 2 ^ (- e) in
      let v := if s then - v else v in
      if (INT_MIN <=? v) && (v <=? INT_MAX) then Ok v else Undefined
  | _ => Undefined
  end.

(** The conversion of a document to [int]. *)
Definition json_to_int (j : json) : result Z :=
  match j with
  | JInt z => Ok (to_int z)
  | JBool b => Ok (if b then 1 else 0)
  | JFloat f => int_of_double f
  | _ => Throw type_error
  end.

(** [-x] and [std::abs(x)] on [int]: undefined at [INT_MIN]. *)
Definition int_neg (x : Z) : result Z :=
  if x =? INT_MIN then Undefined else Ok (- x).

Definition int_abs (x : Z) : result Z :=
  if x =? INT_MIN then Undefined else Ok (Z.abs x).

(** The exchange of [node["true"]] and [node["false"]] through
    [node["swap"]]. *)
Definition swap_branches (m : gmap string json) : gmap string json :=
  let m := <["swap" := get "true" m]> m in
  let m := <["true" := get "false" m]> m in
  let m := <["false" := get "swap" m]> m in
  delete "swap" m.

(** The lookup of a split's feature: the position to read in the
    alternate table and the flip flag.  When neither the index nor its
    negation is in [main], [normal_index] stays uninitialised. *)
Definition normal_index_of (main : translation_type) (cannonical_index : Z)
  : result (nat * bool) :=
  if found main cannonical_index then
    Ok (find_distance main cannonical_index, false)
  else
    negated ← int_neg cannonical_index;
    if found main negated then Ok (find_distance main negated, true)
    else Undefined.

(** [Model::translate_json]. *)
Fixpoint translate_json (node : json) (main alternative : translation_type)
    (n_features : Z) : result json :=
  match node with
  | JObject m =>
      if bool_decide (is_Some (m !! "prediction")) then
        prediction ← json_to_int (get "prediction" m);
        let cannonical_index := to_int (prediction + n_features) in
        let normal_index := find_distance main cannonical_index in
        entry ← vector_at alternative normal_index;
        let alternative_index := to_int (entry - n_features) in
        Ok (JObject (<["prediction" := JInt alternative_index]> m))
      else if bool_decide (is_Some (m !! "feature")) then
        let rec := (fun child => translate_json child main alternative n_features) <$> m in
        cannonical_index ← json_to_int (get "feature" m);
        '(normal_index, flip) ← normal_index_of main cannonical_index;
        alternative_index ← vector_at alternative normal_index;
        let flip := if alternative_index <? 0 then negb flip else flip in
        feature ← int_abs alternative_index;
        let m := <["feature" := JInt feature]> m in
        false_ ← default (Ok JNull) (rec !! "false");
        let m := <["false" := false_]> m in
        true_ ← default (Ok JNull) (rec !! "true");
        let m := <["true" := true_]> m in
        Ok (JObject (if flip then swap_branches m else m))
      else Ok node
  | _ => Ok node
  end.

(** ** The dataset interface, the constructors and the translator tables

    [Dataset] is declared outside [model.cpp]; the model reads its
    summary statistics of a row-set, its map from a binary feature to the
    original feature, its configuration and its number of features. *)
Record SummaryStatistics : Type := {
  optimal : Z;
  max_loss : float
}.

Record Configuration : Type := {
  regularization : float;
  non_binary : bool
}.

Record Dataset (Bitmask : Type) : Type := {
  summary_statistics : Bitmask -> Bitmask -> SummaryStatistics;
  original_feature : Z -> Z;
  m_config : Configuration;
  m_number_features : Z
}.

Arguments summary_statistics {Bitmask} d capture_set work_buffer.
Arguments original_feature {Bitmask} d binary_feature_index.
Arguments m_config {Bitmask} d.
Arguments m_number_features {Bitmask} d.

(** The translator tables of a node, set after construction by
    [translate_self], [translate_negatives] and [translate_positives];
    a constructed node holds three empty tables. *)
Record Translators : Type := {
  self_translator : translation_type;
  negative_translator : translation_type;
  positive_translator : translation_type
}.

Definition no_translators : Translators :=
  {| self_translator := []; negative_translator := []; positive_translator := [] |}.

(** A [Model] together with the translator tables of each of its nodes;
    [forget] is the tree the canonicalization works on. *)
Inductive TranslatedModel (Bitmask : Type) : Type :=
| TLeaf (binary_target : Z) (_loss _complexity : float) (capture_set : Bitmask)
        (tables : Translators)
| TSplit (binary_feature feature : Z) (negative positive : TranslatedModel Bitmask)
         (tables : Translators).

Arguments TLeaf {Bitmask} binary_target _loss _complexity capture_set tables.
Arguments TSplit {Bitmask} binary_feature feature negative positive tables.

Section Serialization.
Context {Bitmask : Type}.

Fixpoint forget (m : TranslatedModel Bitmask) : Model Bitmask :=
  match m with
  | TLeaf binary_target _loss _complexity capture_set _ =>
      Leaf binary_target _loss _complexity capture_set
  | TSplit binary_feature feature negative positive _ =>
      Split binary_feature feature (forget negative) (forget positive)
  end.

(** The two constructors of [Model]. *)
Definition Model_leaf (capture_set : Bitmask) (dataset : Dataset Bitmask)
    (work_buffer : Bitmask) : TranslatedModel Bitmask :=
  let stats := summary_statistics dataset capture_set work_buffer in
  TLeaf (optimal stats) (max_loss stats) (regularization (m_config dataset)) capture_set
        no_translators.

Definition Model_split (binary_feature_index : Z) (negative positive : TranslatedModel Bitmask)
    (dataset : Dataset Bitmask) : TranslatedModel Bitmask :=
  TSplit binary_feature_index (original_feature dataset binary_feature_index)
         negative positive no_translators.

Definition tables_of (m : TranslatedModel Bitmask) : Translators :=
  match m with
  | TLeaf _ _ _ _ tables => tables
  | TSplit _ _ _ _ tables => tables
  end.

Definition with_tables (m : TranslatedModel Bitmask) (tables : Translators)
  : TranslatedModel Bitmask :=
  match m with
  | TLeaf t l c s _ => TLeaf t l c s tables
  | TSplit bf f n p _ => TSplit bf f n p tables
  end.

(** [Model::translate_self], [Model::translate_negatives] and
    [Model::translate_positives]. *)
Definition translate_self (m : TranslatedModel Bitmask) (translation : translation_type)
  : TranslatedModel Bitmask :=
  with_tables m {| self_translator := translation;
                   negative_translator := negative_translator (tables_of m);
                   positive_translator := positive_translator (tables_of m) |}.

Definition translate_negatives (m : TranslatedModel Bitmask) (translation : translation_type)
  : TranslatedModel Bitmask :=
  with_tables m {| self_translator := self_translator (tables_of m);
                   negative_translator := translation;
                   positive_translator := positive_translator (tables_of m) |}.

Definition translate_positives (m : TranslatedModel Bitmask) (translation : translation_type)
  : TranslatedModel Bitmask :=
  with_tables m {| self_translator := self_translator (tables_of m);
                   negative_translator := negative_translator (tables_of m);
                   positive_translator := translation |}.

(** [node[key] = v] on any document: [null] turns into an object, any other
    non-object throws. *)
Definition set_key (node : json) (key : string) (v : json) : result json :=
  match node with
  | JNull => Ok (JObject (<[key := v]> ∅))
  | JObject m => Ok (JObject (<[key := v]> m))
  | _ => Throw type_error
  end.

(** [Model::_to_json].  The children are written into the fresh objects
    [node["false"]] and [node["true"]]; a child's document is translated
    when this node's table for that side is not empty, from the child's own
    table to this node's. *)
Fixpoint _to_json (m : TranslatedModel Bitmask) (dataset : Dataset Bitmask) (node : json)
  : result json :=
  match m with
  | TLeaf binary_target _loss _ _ _ =>
      node ← set_key node "prediction" (JInt binary_target);
      node ← set_key node "loss" (JFloat (double_of_float _loss));
      set_key node "complexity" (JFloat (double_of_float (regularization (m_config dataset))))
  | TSplit binary_feature feature negative positive tables =>
      node ← set_key node "feature" (JInt binary_feature);
      node ← set_key node "orig_feature" (JInt feature);
      false_ ← _to_json negative dataset (JObject ∅);
      true_ ← _to_json positive dataset (JObject ∅);
      false_ ← (if bool_decide (0 < length (negative_translator tables))%nat then
                  translate_json false_ (self_translator (tables_of negative))
                                 (negative_translator tables) (m_number_features dataset)
                else Ok false_);
      true_ ← (if bool_decide (0 < length (positive_translator tables))%nat then
                 translate_json true_ (self_translator (tables_of positive))
                                (positive_translator tables) (m_number_features dataset)
               else Ok true_);
      node ← set_key node "false" false_;
      set_key node "true" true_
  end.

(** [Model::to_json]. *)
Definition to_json (m : TranslatedModel Bitmask) (dataset : Dataset Bitmask) (node : json)
  : result json :=
  node ← _to_json m dataset node;
  if non_binary (m_config dataset) then summarize node else Ok node.

(** The document [Model::serialize] dumps: [to_json] on a fresh object. *)
Definition serialized_document (m : TranslatedModel Bitmask) (dataset : Dataset Bitmask)
  : result json :=
  to_json m dataset (JObject ∅).

End Serialization.

(** ** Reference definitions for the document rewrites, following the
    specification's wording *)

(** The position of a split's feature id in the main table: the id itself
    is looked up first; when it is absent its negation is looked up and
    the flip flag is raised. *)
Definition table_position (main : translation_type) (id : Z) : option (nat * bool) :=
  match list_find (fun x => x = id) main with
  | Some (i, _) => Some (i, false)
  | None =>
      match list_find (fun x => x = - id) main with
      | Some (i, _) => Some (i, true)
      | None => None
      end
  end.

(** The larger and the smaller of two numeric bounds: two integers by
    their value as integers; as soon as one of the two is a float, both by
    their value as doubles, in the IEEE order. *)
Definition bound_double (j : json) : double :=
  match j with
  | JInt z => double_of_int z
  | JFloat f => f
  | _ => S754_nan
  end.

Definition larger_bound (a b : json) : json :=
  match a, b with
  | JInt x, JInt y => JInt (Z.max x y)
  | _, _ => if SFltb (bound_double a) (bound_double b) then b else a
  end.

Definition smaller_bound (a b : json) : json :=
  match a, b with
  | JInt x, JInt y => JInt (Z.min x y)
  | _, _ => if SFltb (bound_double b) (bound_double a) then b else a
  end.

(** The intersection of two interval guards, bound by bound: the maximum
    of two lower bounds and the minimum of two upper bounds; a [null]
    bound defers to the other side; two [null] bounds stay [null]. *)
Definition meet_lower (parent sub : json) : json :=
  match is_null parent, is_null sub with
  | true, true => JNull
  | true, false => sub
  | false, true => parent
  | false, false => larger_bound parent sub
  end.

Definition meet_upper (parent sub : json) : json :=
  match is_null parent, is_null sub with
  | true, true => JNull
  | true, false => sub
  | false, true => parent
  | false, false => smaller_bound parent sub
  end.

(** A bound of a numeric interval: a number or [null]. *)
Definition is_bound (j : json) : bool :=
  match j with
  | JNull | JInt _ | JFloat _ => true
  | _ => false
  end.




(** ** Concrete inputs

    A small instance of the row-set interface (bit vectors, compared by
    content), some binary32 values, and trees and documents on which the
    model is run below. *)
Definition bits_hash (b : list bool) : Z :=
  fold_left (fun acc (x : bool) => 2 * acc + (if x then 1 else 0)) b 1.

#[export] Instance bits_ops : BitmaskOps (list bool) := {|
  bitmask_hash := bits_hash;
  bitmask_neq := fun a b => negb (bool_decide (a = b))
|}.

Definition rows_A : list bool := [true; true; false; false].
Definition rows_B : list bool := [false; false; true; false].
Definition rows_C : list bool := [false; false; false; true].

(** [1.0f], [2^-24f] (half an ulp of [1.0f]) and [0.01f] rounded. *)
Definition f32_one : float := S754_finite false 8388608 (-23).
Definition f32_half_ulp : float := S754_finite false 8388608 (-47).
Definition f32_reg : float := S754_finite false 10737418 (-30).

Definition leaf_A : Model (list bool) := Leaf 1 f32_one f32_reg rows_A.
Definition leaf_B : Model (list bool) := Leaf 0 f32_half_ulp f32_reg rows_B.
Definition leaf_C : Model (list bool) := Leaf 1 f32_half_ulp f32_reg rows_C.

(** The same three leaves in the same order under two shapes. *)
Definition tree_right : Model (list bool) := Split 1 1 leaf_A (Split 2 2 leaf_B leaf_C).
Definition tree_left : Model (list bool) := Split 5 3 (Split 7 4 leaf_A leaf_B) leaf_C.

(** Documents: a leaf as [_to_json] writes it, a split with the fields
    the summarizer reads, and a split as [_to_json] writes it. *)
Definition doc_leaf (prediction : Z) : json :=
  JObject (<["prediction" := JInt prediction]>
          (<["loss" := JFloat (double_of_float f32_half_ulp)]>
          (<["complexity" := JFloat (double_of_float f32_reg)]> ∅))).

Definition doc_split (feature : Z) (type : string) (reference true_ false_ : json) : json :=
  JObject (<["feature" := JInt feature]>
          (<["type" := JString type]>
          (<["reference" := reference]>
          (<["relation" := JString ">="]>
          (<["true" := true_]>
          (<["false" := false_]> ∅)))))).

Definition doc_plain (feature orig_feature : Z) (true_ false_ : json) : json :=
  JObject (<["feature" := JInt feature]>
          (<["orig_feature" := JInt orig_feature]>
          (<["true" := true_]>
          (<["false" := false_]> ∅)))).

(** A summarized split: its type and its branches. *)
Definition doc_nary (feature : Z) (type : string) (branches : list json) : json :=
  JObject (<["feature" := JInt feature]>
          (<["type" := JString type]>
          (<["children" := JArray branches]> ∅))).




(** ** Reference definitions for the serialization, the tables and the
    branches of summarized documents *)

(** The document of a tree with no translation: a leaf holds its
    prediction, its loss and a complexity, which is [written_complexity]
    of the stored one; a split holds its two feature ids and the documents
    of its children. *)
Fixpoint plain_fields {Bitmask : Type} (written_complexity : float -> float)
    (m : Model Bitmask) : gmap string json :=
  match m with
  | Leaf binary_target _loss _complexity _ =>
      <["complexity" := JFloat (double_of_float (written_complexity _complexity))]>
      (<["loss" := JFloat (double_of_float _loss)]>
      (<["prediction" := JInt binary_target]> ∅))
  | Split binary_feature feature negative positive =>
      <["true" := JObject (plain_fields written_complexity positive)]>
      (<["false" := JObject (plain_fields written_complexity negative)]>
      (<["orig_feature" := JInt feature]>
      (<["feature" := JInt binary_feature]> ∅)))
  end.

(** No split of the tree has a table for either side. *)
Fixpoint untranslated {Bitmask : Type} (m : TranslatedModel Bitmask) : bool :=
  match m with
  | TLeaf _ _ _ _ _ => true
  | TSplit _ _ negative positive tables =>
      bool_decide (negative_translator tables = []) &&
      bool_decide (positive_translator tables = []) &&
      untranslated negative && untranslated positive
  end.

(** A tree assembled by the two constructors over one dataset. *)
Inductive constructed {Bitmask : Type} (dataset : Dataset Bitmask)
  : TranslatedModel Bitmask -> Prop :=
| constructed_leaf capture_set work_buffer :
    constructed dataset (Model_leaf capture_set dataset work_buffer)
| constructed_split binary_feature negative positive :
    constructed dataset negative ->
    constructed dataset positive ->
    constructed dataset (Model_split binary_feature negative positive dataset).

(** A small dataset over bit vectors: the label is the first bit, the
    loss does not depend on the rows, a binary feature [i] stands for the
    original feature [i / 2]. *)
Definition rows_dataset : Dataset (list bool) := {|
  summary_statistics := fun capture_set _ =>
    {| optimal := if default false (head capture_set) then 1 else 0;
       max_loss := f32_half_ulp |};
  original_feature := fun i => i / 2;
  m_config := {| regularization := f32_reg; non_binary := false |};
  m_number_features := 2
|}.

Definition rows_tree : TranslatedModel (list bool) :=
  Model_split 3 (Model_leaf rows_B rows_dataset []) (Model_leaf rows_A rows_dataset [])
              rows_dataset.

(** A document all of whose indices are in the table [main]: at a leaf the
    prediction offset by the feature count, at a split (of a non-negative
    feature id) the id or its negation. *)
Inductive own_indices (main : translation_type) (n_features : Z) : json -> Prop :=
| own_indices_leaf (m : gmap string json) z idx c :
    m !! "prediction" = Some (JInt z) ->
    INT_MIN <= z <= INT_MAX ->
    list_find (fun x => x = to_int (z + n_features)) main = Some (idx, c) ->
    own_indices main n_features (JObject m)
| own_indices_split (m : gmap string json) z idx flip f t :
    m !! "prediction" = None ->
    m !! "feature" = Some (JInt z) ->
    0 <= z <= INT_MAX ->
    table_position main z = Some (idx, flip) ->
    m !! "false" = Some f ->
    m !! "true" = Some t ->
    own_indices main n_features f ->
    own_indices main n_features t ->
    own_indices main n_features (JObject m).

(** A document that the pair of tables [main], [alternative] translates:
    every index it needs is in [main] and has an entry in [alternative] at
    the same position; predictions are [int] values, feature ids are
    non-negative [int] values, a split has both subtrees and no field
    named "swap". *)
Inductive translates (main alternative : translation_type) (n_features : Z) : json -> Prop :=
| translates_leaf (m : gmap string json) z idx c e :
    m !! "prediction" = Some (JInt z) ->
    INT_MIN <= z <= INT_MAX ->
    list_find (fun x => x = to_int (z + n_features)) main = Some (idx, c) ->
    alternative !! idx = Some e ->
    translates main alternative n_features (JObject m)
| translates_split (m : gmap string json) z idx flip a f t :
    m !! "prediction" = None ->
    m !! "feature" = Some (JInt z) ->
    0 <= z <= INT_MAX ->
    table_position main z = Some (idx, flip) ->
    alternative !! idx = Some a ->
    m !! "swap" = None ->
    m !! "false" = Some f ->
    m !! "true" = Some t ->
    translates main alternative n_features f ->
    translates main alternative n_features t ->
    translates main alternative n_features (JObject m).

(** A table to translate back from: no entry twice, no entry beside its
    negation, every entry an [int] other than [INT_MIN]. *)
Definition reversible_table (alternative : translation_type) : Prop :=
  NoDup alternative /\
  Forall (fun a => INT_MIN < a <= INT_MAX) alternative /\
  forall a, a ∈ alternative -> a < 0 -> - a ∉ alternative.

(** A branch of a summarized split: an object with a guard and a
    subtree. *)
Definition is_branch (j : json) : Prop := exists guard subtree, j = branch guard subtree.

(** Whether [summarize] promotes the branches of a summarized child of a
    split on [feature]. *)
Definition promoted (feature child : json) : bool :=
  contains "feature" child && json_eqb (get_of child "feature") feature.

(** What a candidate child contributes under a categorical split: its own
    branches, as they are, when it is promoted; itself under the
    candidate's guard otherwise. *)
Definition categorical_branches (feature guard child : json) : list json :=
  if promoted feature child then json_items (get_of child "children")
  else [branch guard child].

(** What a candidate child contributes under a split whose type is none
    of the three domain types: nothing when it is promoted, itself under a
    [null] guard otherwise. *)
Definition untyped_branches (feature child : json) : list json :=
  if promoted feature child then [] else [branch JNull child].

(** Whether a tree is a split on the binary feature [binary_feature]. *)
Definition splits_on {Bitmask : Type} (binary_feature : Z) (m : Model Bitmask) : bool :=
  match m with
  | Split bf _ _ _ => bf =? binary_feature
  | Leaf _ _ _ _ => false
  end.

(** The N-ary document of a tree with no translation, as the summarizer
    makes it from the plain document: a split holds its two feature ids, a
    "type" that is [null], and one branch with a [null] guard for each
    child, the "true" child first, that is not itself a split on the same
    binary feature. *)
Fixpoint nary_fields {Bitmask : Type} (written_complexity : float -> float)
    (m : Model Bitmask) : gmap string json :=
  match m with
  | Leaf binary_target _loss _complexity _ =>
      <["complexity" := JFloat (double_of_float (written_complexity _complexity))]>
      (<["loss" := JFloat (double_of_float _loss)]>
      (<["prediction" := JInt binary_target]> ∅))
  | Split binary_feature feature negative positive =>
      <["children" :=
          JArray ((if splits_on binary_feature positive then []
                   else [branch JNull (JObject (nary_fields written_complexity positive))]) ++
                  (if splits_on binary_feature negative then []
                   else [branch JNull (JObject (nary_fields written_complexity negative))]))]>
      (<["type" := JNull]>
      (<["orig_feature" := JInt feature]>
      (<["feature" := JInt binary_feature]> ∅)))
  end.

(** Trees that split twice on one binary feature, and their documents. *)
Definition rows_tree_repeated : TranslatedModel (list bool) :=
  Model_split 3 (Model_leaf rows_C rows_dataset [])
              (Model_split 3 (Model_leaf rows_B rows_dataset [])
                           (Model_leaf rows_A rows_dataset []) rows_dataset)
              rows_dataset.

Definition rows_dataset_nary : Dataset (list bool) := {|
  summary_statistics := summary_statistics rows_dataset;
  original_feature := original_feature rows_dataset;
  m_config := {| regularization := f32_reg; non_binary := true |};
  m_number_features := 2
|}.

(** The size of a document, for induction on documents. *)
Fixpoint json_size (j : json) : nat :=
  match j with
  | JArray l => S (foldr (fun x acc => json_size x + acc)%nat 0%nat l)
  | JObject m => S (map_fold (fun _ v acc => json_size v + acc)%nat 0%nat m)
  | _ => 0%nat
  end.

(** A computation that can only end well or with a [type_error] of the
    JSON library. *)
Definition only_type_error {A : Type} (r : result A) : Prop :=
  match r with
  | Ok _ => True
  | Throw e => e = type_error
  | Undefined => False
  end.

(** A numeric split over a categorical split on the same feature. *)
Definition doc_mixed : json :=
  doc_split 1 "integral" (JInt 5)
            (doc_split 1 "categorical" (JString "red") (doc_leaf 1) (doc_leaf 2))
            (doc_leaf 0).

(** A bound of an integer interval, and the integers an interval
    [lo, hi) admits ([null] leaves the side open). *)
Definition is_int_bound (j : json) : bool :=
  match j with
  | JNull | JInt _ => true
  | _ => false
  end.

Definition interval_admits (lo hi : json) (x : Z) : Prop :=
  match lo with JNull => True | JInt a => a <= x | _ => False end /\
  match hi with JNull => True | JInt b => x < b | _ => False end.



(** * Properties of the canonicalization *)

Section CanonicalizationFacts.
Context {Bitmask : Type} `{BitmaskOps Bitmask}.
Implicit Types (m x y : Model Bitmask) (l : list Bitmask).

Lemma push_loop l out :
  fold_left (fun acc it => acc ++ [it]) l out = out ++ l.
Proof.
  revert out. induction l as [|x l IH]; intros out; simpl.
  - by rewrite app_nil_r.
  - rewrite IH, <- app_assoc. reflexivity.
Qed.

Lemma _partitions_dfs m addresses :
  _partitions m addresses = addresses ++ dfs_capture_sets m.
Proof.
  revert addresses.
  induction m as [? ? ? c|? ? n IHn p IHp]; intros addresses; simpl.
  - reflexivity.
  - rewrite IHp, IHn. unfold dfs_capture_sets. simpl.
    rewrite omap_app, app_assoc. reflexivity.
Qed.

Lemma partitions_dfs m out : partitions m out = out ++ dfs_capture_sets m.
Proof. unfold partitions. by rewrite push_loop, _partitions_dfs. Qed.

Lemma hash_step_combine seed h : hash_step seed h = hash_combine seed h.
Proof.
  unfold hash_step, hash_combine, wrap64. f_equal.
  rewrite Z.shiftl_mul_pow2, Z.shiftr_div_pow2 by lia.
  change (2 ^ 6) with 64. change (2 ^ 2) with 4.
  rewrite <- (Z.add_assoc _ _ (seed / 4)), (Z.add_comm _ (seed / 4)), Z.add_assoc.
  rewrite Zplus_mod_idemp_r. f_equal. lia.
Qed.

Lemma dfs_capture_sets_length m : length (dfs_capture_sets m) = length (dfs_leaves m).
Proof.
  unfold dfs_capture_sets.
  induction m as [? ? ? c|? ? n IHn p IHp]; simpl; [done|].
  by rewrite omap_app, !length_app, IHn, IHp.
Qed.

Lemma hash_loop_fold l seed :
  hash_loop l seed = fold_left hash_combine (bitmask_hash <$> l) seed.
Proof.
  revert seed. induction l as [|b l IH]; intros seed; simpl; [done|].
  by rewrite IH, hash_step_combine.
Qed.

Lemma masks_loop_true l1 l2 :
  length l1 = length l2 ->
  masks_loop l1 l2 = true <-> Forall2 (fun a b => bitmask_neq a b = false) l1 l2.
Proof.
  revert l2. induction l1 as [|a l1 IH]; intros [|b l2] Hlen; simpl in *; try discriminate.
  - split; [constructor|done].
  - injection Hlen as Hlen. destruct (bitmask_neq a b) eqn:Hab.
    + split; [done|]. intros Hall. apply Forall2_cons in Hall as [Hne _]. congruence.
    + rewrite IH by done. split.
      * by constructor.
      * intros Hall. by apply Forall2_cons in Hall as [_ ?].
Qed.

Lemma masks_loop_refl `{!BitmaskLaws Bitmask} l : masks_loop l l = true.
Proof.
  induction l as [|a l IH]; simpl; [done|].
  by rewrite bitmask_neq_irrefl.
Qed.

Lemma operator_eq_unfold x y :
  operator_eq x y =
  (hash x =? hash y) &&
  ((length (partitions x []) =? length (partitions y []))%nat &&
   masks_loop (partitions x []) (partitions y [])).
Proof.
  unfold operator_eq.
  destruct (hash x =? hash y); simpl; [|done].
  by destruct (_ =? _)%nat.
Qed.

(** C3: [partitions] appends to the caller's vector exactly the capture
    sets of the leaves in depth-first order, negative child before positive
    child; the order is the raw traversal order, so the two ways of hanging
    the same two leaves under a split yield the two different sequences. *)
Theorem partitions_traversal_order m out :
  partitions m out = out ++ dfs_capture_sets m /\
  forall bf f ta la ca (a : Bitmask) tb lb cb (b : Bitmask),
    partitions (Split bf f (Leaf ta la ca a) (Leaf tb lb cb b)) [] = [a; b] /\
    partitions (Split bf f (Leaf tb lb cb b) (Leaf ta la ca a)) [] = [b; a].
Proof.
  split; [apply partitions_dfs|].
  intros. by rewrite !partitions_dfs.
Qed.

(** C2: [hash] seeds with the number of leaves of the tree and folds the
    hash of each leaf's row-set into the seed, leaf by leaf in depth-first
    order (negative child first), with
    [seed xor (h + 0x9e3779b9 + seed * 2^6 + seed / 2^2) mod 2^64]; so two
    trees whose leaf hashes agree position by position (in the leaf
    sequence, which is the [partitions] sequence) hash alike. *)
Theorem hash_fold_of_partitions x y :
  hash x = fold_left hash_combine (bitmask_hash <$> dfs_capture_sets x)
             (Z.of_nat (length (dfs_leaves x)) mod 2 ^ 64) /\
  (bitmask_hash <$> dfs_capture_sets x = bitmask_hash <$> dfs_capture_sets y ->
   hash x = hash y) /\
  (bitmask_hash <$> partitions x [] = bitmask_hash <$> partitions y [] ->
   hash x = hash y).
Proof.
  assert (Hfold : forall t, hash t = fold_left hash_combine (bitmask_hash <$> dfs_capture_sets t)
              (Z.of_nat (length (dfs_leaves t)) mod 2 ^ 64)).
  { intros t. unfold hash. rewrite hash_loop_fold, partitions_dfs, app_nil_l.
    by rewrite dfs_capture_sets_length. }
  assert (Hsame : bitmask_hash <$> dfs_capture_sets x = bitmask_hash <$> dfs_capture_sets y ->
                  hash x = hash y).
  { intros Heq. rewrite !Hfold, Heq. do 2 f_equal.
    rewrite <- !dfs_capture_sets_length.
    rewrite <- (length_fmap bitmask_hash (dfs_capture_sets x)), Heq.
    by rewrite length_fmap. }
  split; [apply Hfold|]. split; [exact Hsame|].
  rewrite !partitions_dfs, !app_nil_l. exact Hsame.
Qed.

(** C1: [operator==] is false when the hashes differ; when they agree it
    is true exactly when the two [partitions] sequences have the same
    length and no position holds two row-sets that [!=] separates; a
    difference in length gives [false], as a value. *)
Theorem operator_eq_spec x y :
  (hash x <> hash y -> operator_eq x y = false) /\
  (hash x = hash y ->
   (operator_eq x y = true <->
    length (partitions x []) = length (partitions y []) /\
    forall i a b, partitions x [] !! i = Some a -> partitions y [] !! i = Some b ->
                  bitmask_neq a b = false)) /\
  (length (partitions x []) <> length (partitions y []) -> operator_eq x y = false).
Proof.
  rewrite operator_eq_unfold. split; [|split].
  - intros Hne. apply Z.eqb_neq in Hne. by rewrite Hne.
  - intros Hhash. rewrite Hhash, Z.eqb_refl. simpl.
    rewrite andb_true_iff, Nat.eqb_eq. split.
    + intros [Hlen Hloop]. split; [done|].
      apply masks_loop_true in Hloop; [|done].
      intros i a b Ha Hb. by eapply Forall2_lookup_lr in Hloop.
    + intros [Hlen Hpos]. split; [done|].
      apply masks_loop_true; [done|].
      apply Forall2_same_length_lookup_2; [done|]. intros i a b. apply Hpos.
  - intros Hlen. apply Nat.eqb_neq in Hlen. rewrite Hlen.
    by destruct (hash x =? hash y).
Qed.

(** C9: two trees over the same two leaves whose row-sets [!=] separates,
    one hung as (A, B) and the other as (B, A), under any split features,
    are unequal for [operator==]. *)
Theorem operator_eq_order_sensitive (A B : Bitmask) tA lA cA tB lB cB bf1 f1 bf2 f2 :
  bitmask_neq A B = true ->
  operator_eq (Split bf1 f1 (Leaf tA lA cA A) (Leaf tB lB cB B))
              (Split bf2 f2 (Leaf tB lB cB B) (Leaf tA lA cA A)) = false.
Proof.
  intros Hne. rewrite operator_eq_unfold, !partitions_dfs. simpl.
  rewrite Hne. apply andb_false_r.
Qed.

(** C10: with a row-set [!=] that never separates a row-set from itself,
    two trees with the same depth-first sequence of leaf row-sets are equal
    for [operator==] and have the same [hash], whatever their split
    features and shapes; and either may stand for the other on both sides
    of [operator==]. *)
Theorem operator_eq_hash_only_leaf_sequence `{!BitmaskLaws Bitmask} x y :
  dfs_capture_sets x = dfs_capture_sets y ->
  operator_eq x y = true /\ hash x = hash y /\
  forall z, operator_eq x z = operator_eq y z /\ operator_eq z x = operator_eq z y.
Proof.
  intros Hseq.
  assert (Hpart : partitions x [] = partitions y []) by (by rewrite !partitions_dfs, Hseq).
  assert (Hhash : hash x = hash y) by (unfold hash; by rewrite Hpart).
  split; [|split; [done|]].
  - rewrite operator_eq_unfold, Hhash, Hpart, Z.eqb_refl, Nat.eqb_refl, masks_loop_refl.
    reflexivity.
  - intros z. by rewrite !operator_eq_unfold, Hhash, Hpart.
Qed.

End CanonicalizationFacts.

(** * Loss and complexity *)

Section LossFacts.
Context {Bitmask : Type} `{BitmaskOps Bitmask}.
Implicit Types (m x y : Model Bitmask).

Lemma leaf_losses_nonempty m : leaf_losses m <> [].
Proof.
  unfold leaf_losses. induction m as [|? ? n IHn p IHp]; simpl; [done|].
  rewrite omap_app. intros Happ. by apply app_eq_nil in Happ as [? _].
Qed.

Lemma leaf_complexities_nonempty m : leaf_complexities m <> [].
Proof.
  unfold leaf_complexities. induction m as [|? ? n IHn p IHp]; simpl; [done|].
  rewrite omap_app. intros Happ. by apply app_eq_nil in Happ as [? _].
Qed.

Lemma float_sum_from_first_snoc (l : list float) (v : float) :
  l <> [] -> float_sum_from_first (l ++ [v]) = float_add (float_sum_from_first l) v.
Proof.
  destruct l as [|u l]; [done|]. intros _. simpl.
  by rewrite fold_left_app.
Qed.

(** Starting the sum at zero changes nothing unless the first term is the
    negative zero ([0 + (-0)] is [0]). *)
Lemma float_sum_from_zero (v : float) (l : list float) :
  v <> S754_zero true -> float_sum (v :: l) = float_sum_from_first (v :: l).
Proof.
  intros Hv. unfold float_sum. simpl. f_equal.
  by destruct v as [[|]| | |].
Qed.

(** The capture sets, losses and complexities of the leaves line up: all
    three are read off the same depth-first sequence of leaves. *)
Lemma leaf_sequences_length m :
  length (leaf_losses m) = length (partitions m []) /\
  length (leaf_complexities m) = length (partitions m []).
Proof.
  rewrite partitions_dfs. simpl.
  unfold leaf_losses, leaf_complexities, dfs_capture_sets.
  induction m as [|? ? n [IHn1 IHn2] p [IHp1 IHp2]]; simpl; [done|].
  rewrite !omap_app, !length_app. lia.
Qed.

(** C4 (amended): the loss of a split is the binary32 sum of its children's
    losses and nothing else; when the positive child of every split is a
    leaf this is the left-to-right sum of the leaf losses in [partitions]
    order; the same holds for the complexity. *)
Theorem loss_complexity_sum m :
  (forall bf f n p,
      loss (Split bf f n p : Model Bitmask) = float_add (loss n) (loss p) /\
      complexity (Split bf f n p : Model Bitmask) = float_add (complexity n) (complexity p)) /\
  (left_comb m = true ->
   loss m = float_sum_from_first (leaf_losses m) /\
   complexity m = float_sum_from_first (leaf_complexities m)).
Proof.
  split; [done|].
  induction m as [|? ? n IHn p _]; simpl; [done|].
  destruct p as [tp lp cp sp|]; [|done]. intros Hcomb.
  destruct (IHn Hcomb) as [IHl IHc]. simpl.
  unfold leaf_losses, leaf_complexities in *. simpl. rewrite !omap_app. simpl.
  rewrite !float_sum_from_first_snoc, IHl, IHc;
    [done | apply leaf_complexities_nonempty | apply leaf_losses_nonempty].
Qed.

End LossFacts.

(** C4, as stated, fails: [tree_right] and [tree_left] hold the same leaves
    in the same order (same [partitions], same leaf losses), yet their
    losses differ, [1 + (2^-24 + 2^-24)] against [(1 + 2^-24) + 2^-24]; so
    no sum of the leaf losses over that one sequence equals both, and the
    left-to-right sum differs from the loss of [tree_right]. *)
Lemma loss_not_sum_over_partitions :
  partitions tree_right [] = partitions tree_left [] /\
  leaf_losses tree_right = leaf_losses tree_left /\
  loss tree_right <> loss tree_left /\
  loss tree_right <> float_sum (leaf_losses tree_right) /\
  loss tree_right <> float_sum_from_first (leaf_losses tree_right).
Proof. repeat split; (reflexivity || (vm_compute; discriminate)). Qed.

(** The left-to-right sum is met on a left comb. *)
Lemma loss_complexity_sum_witness :
  left_comb tree_left = true /\
  loss tree_left = float_sum_from_first (leaf_losses tree_left) /\
  complexity tree_left = float_sum_from_first (leaf_complexities tree_left).
Proof.
  split; [reflexivity|].
  apply (proj2 (loss_complexity_sum tree_left)). reflexivity.
Defined.

(** * Properties of the index translator *)

Lemma find_distance_le (v : translation_type) x : (find_distance v x <= length v)%nat.
Proof. induction v as [|y v IH]; simpl; [lia|]. destruct (y =? x); lia. Qed.

Lemma find_distance_list_find (v : translation_type) x :
  match list_find (fun y => y = x) v with
  | Some (i, _) => find_distance v x = i /\ found v x = true
  | None => find_distance v x = length v /\ found v x = false
  end.
Proof.
  unfold found. induction v as [|y v IH]; simpl.
  - done.
  - destruct (decide (y = x)) as [->|Hne].
    + rewrite Z.eqb_refl. split; [done|]. apply bool_decide_eq_true_2. lia.
    + rewrite (proj2 (Z.eqb_neq _ _) Hne).
      destruct (list_find _ v) as [[i z]|]; simpl; destruct IH as [IHd IHf].
      * split; [lia|]. apply bool_decide_eq_true_2.
        apply bool_decide_eq_true_1 in IHf. lia.
      * split; [lia|]. apply bool_decide_eq_false_2. lia.
Qed.

Lemma normal_index_of_position main id idx flip :
  id <> INT_MIN ->
  table_position main id = Some (idx, flip) ->
  normal_index_of main id = Ok (idx, flip).
Proof.
  intros Hmin. unfold table_position, normal_index_of.
  pose proof (find_distance_list_find main id) as Hid.
  pose proof (find_distance_list_find main (- id)) as Hneg.
  destruct (list_find (fun x => x = id) main) as [[i z]|].
  - destruct Hid as [-> ->]. by intros [= <- <-].
  - destruct Hid as [_ ->]. unfold int_neg.
    rewrite (proj2 (Z.eqb_neq _ _) Hmin). simpl.
    destruct (list_find (fun x => x = - id) main) as [[i z]|]; [|done].
    destruct Hneg as [-> ->]. by intros [= <- <-].
Qed.

Lemma recursive_call (f : json -> result json) (m : gmap string json) key :
  f JNull = Ok JNull ->
  default (Ok JNull) ((f <$> m) !! key) = f (get key m).
Proof.
  intros Hnull. unfold get. rewrite lookup_fmap.
  by destruct (m !! key).
Qed.

Lemma translate_json_object m main alternative n_features :
  translate_json (JObject m) main alternative n_features =
  if bool_decide (is_Some (m !! "prediction")) then
    prediction ← json_to_int (get "prediction" m);
    entry ← vector_at alternative (find_distance main (to_int (prediction + n_features)));
    Ok (JObject (<["prediction" := JInt (to_int (entry - n_features))]> m))
  else if bool_decide (is_Some (m !! "feature")) then
    cannonical_index ← json_to_int (get "feature" m);
    position ← normal_index_of main cannonical_index;
    alternative_index ← vector_at alternative position.1;
    feature ← int_abs alternative_index;
    false_ ← translate_json (get "false" m) main alternative n_features;
    true_ ← translate_json (get "true" m) main alternative n_features;
    let m' := <["true" := true_]> (<["false" := false_]> (<["feature" := JInt feature]> m)) in
    Ok (JObject (if (if alternative_index <? 0 then negb position.2 else position.2)
                 then swap_branches m' else m'))
  else Ok (JObject m).
Proof.
  simpl. repeat case_bool_decide; try done.
  destruct (json_to_int _); simpl; try done.
  destruct (normal_index_of _ _) as [[i flip]| |]; simpl; try done.
  destruct (vector_at _ _); simpl; try done.
  destruct (int_abs _); simpl; try done.
  rewrite !(recursive_call (fun child => translate_json child main alternative n_features)) by done.
  done.
Qed.

Lemma swap_branches_lookup (m : gmap string json) key :
  swap_branches m !! key =
  if decide (key = "swap") then None
  else if decide (key = "false") then Some (get "true" m)
  else if decide (key = "true") then Some (get "false" m)
  else m !! key.
Proof.
  unfold swap_branches, get.
  repeat case_decide; subst; simplify_map_eq; try done.
Qed.

(** A leaf whose canonical index is not in the main table reads the
    alternate table one past the main table's length: an exception only
    when the alternate table is no longer than the main one. *)
Lemma translate_json_leaf_absent m main alternative n_features prediction :
  is_Some (m !! "prediction") ->
  json_to_int (get "prediction" m) = Ok prediction ->
  found main (to_int (prediction + n_features)) = false ->
  translate_json (JObject m) main alternative n_features =
  match alternative !! length main with
  | Some entry => Ok (JObject (<["prediction" := JInt (to_int (entry - n_features))]> m))
  | None => Throw out_of_range
  end.
Proof.
  intros Hpred Hint Habsent. rewrite translate_json_object.
  rewrite bool_decide_eq_true_2 by done. rewrite Hint. simpl.
  unfold found in Habsent. apply bool_decide_eq_false_1 in Habsent.
  pose proof (find_distance_le main (to_int (prediction + n_features))).
  replace (find_distance main (to_int (prediction + n_features))) with (length main) by lia.
  unfold vector_at. by destruct (alternative !! length main).
Qed.

(** C7: at a split node (no prediction, a feature id [id]), with the id or
    else its negation at position [idx] of the main table ([flip] raised
    in the second case) and [a] the alternate table's entry at [idx]: the
    node's feature becomes [|a|], the flip flag is toggled when [a] is
    negative, both subtrees are translated, and they are exchanged exactly
    when the flag is set; the node's other fields stay ("swap" apart,
    which the exchange uses and erases). *)
Theorem translate_json_split_node m main alternative n_features id idx flip a F T :
  m !! "prediction" = None ->
  is_Some (m !! "feature") ->
  json_to_int (get "feature" m) = Ok id ->
  id <> INT_MIN ->
  table_position main id = Some (idx, flip) ->
  alternative !! idx = Some a ->
  a <> INT_MIN ->
  translate_json (get "false" m) main alternative n_features = Ok F ->
  translate_json (get "true" m) main alternative n_features = Ok T ->
  exists m',
    translate_json (JObject m) main alternative n_features = Ok (JObject m') /\
    m' !! "feature" = Some (JInt (Z.abs a)) /\
    m' !! "false" = Some (if xorb flip (a <? 0) then T else F) /\
    m' !! "true" = Some (if xorb flip (a <? 0) then F else T) /\
    forall key, key ∉ ["feature"; "false"; "true"; "swap"] -> m' !! key = m !! key.
Proof.
  intros Hpred Hfeat Hid Hidmin Hpos Halt Hamin HF HT.
  rewrite translate_json_object.
  rewrite bool_decide_eq_false_2 by (rewrite Hpred; by intros [? ?]).
  rewrite bool_decide_eq_true_2 by done.
  rewrite Hid. simpl.
  rewrite (normal_index_of_position _ _ _ _ Hidmin Hpos). simpl.
  unfold vector_at. rewrite Halt. simpl.
  unfold int_abs. rewrite (proj2 (Z.eqb_neq _ _) Hamin). simpl.
  rewrite HF. simpl. rewrite HT. simpl.
  replace (if a <? 0 then negb flip else flip) with (xorb flip (a <? 0))
    by (by destruct flip, (a <? 0)).
  eexists. split; [reflexivity|].
  destruct (xorb flip (a <? 0)).
  - rewrite !swap_branches_lookup. unfold get. simplify_map_eq.
    repeat split; try done.
    intros key Hkey. rewrite swap_branches_lookup.
    repeat (apply not_elem_of_cons in Hkey as [? Hkey]).
    repeat case_decide; try done. by simplify_map_eq.
  - simplify_map_eq. repeat split; try done.
    intros key Hkey.
    repeat (apply not_elem_of_cons in Hkey as [? Hkey]).
    by simplify_map_eq.
Qed.

Lemma translate_json_split_node_witness :
  exists m',
    translate_json (doc_plain 4 3 (doc_leaf 1) (doc_leaf 0)) [2; 3; -4] [3; 2; 6] 2
    = Ok (JObject m') /\
    m' !! "feature" = Some (JInt 6) /\
    m' !! "false" = Some (doc_leaf 0) /\
    m' !! "true" = Some (doc_leaf 1) /\
    m' !! "orig_feature" = Some (JInt 3).
Proof.
  destruct (translate_json_split_node
              (<["feature" := JInt 4]> (<["orig_feature" := JInt 3]>
                 (<["true" := doc_leaf 1]> (<["false" := doc_leaf 0]> ∅))))
              [2; 3; -4] [3; 2; 6] 2 4 2%nat true 6 (doc_leaf 1) (doc_leaf 0))
    as (m' & Hrun & Hfeat & Hfalse & Htrue & Hrest);
    try (vm_compute; (reflexivity || discriminate)).
  - by eexists.
  - exists m'. repeat split; try done.
    rewrite Hrest; [done|].
    repeat (apply not_elem_of_cons; split; [done|]). apply not_elem_of_nil.
Defined.

(** A split whose feature id and its negation are both missing from the
    main table reads a position that was never set. *)
Lemma translate_json_split_absent m main alternative n_features id :
  m !! "prediction" = None ->
  is_Some (m !! "feature") ->
  json_to_int (get "feature" m) = Ok id ->
  found main id = false ->
  found main (- id) = false ->
  translate_json (JObject m) main alternative n_features = Undefined.
Proof.
  intros Hpred Hfeat Hid Habsent Hnegated.
  rewrite translate_json_object.
  rewrite bool_decide_eq_false_2 by (rewrite Hpred; by intros [? ?]).
  rewrite bool_decide_eq_true_2 by done.
  rewrite Hid. simpl. unfold normal_index_of, int_neg. rewrite Habsent.
  destruct (id =? INT_MIN); [done|]. simpl. by rewrite Hnegated.
Qed.

(** C8: a missing canonical index is not reported.  At a leaf with
    prediction 5 and two features the index 7 is not in the main table
    [3], and the translation returns a document, built from the alternate
    table's entry one past the main table's length; at a split with
    feature 4, with neither 4 nor -4 in the main table, the position read
    in the alternate table was never set. *)
Theorem translate_json_absent_index_not_reported :
  found [3] (to_int (5 + 2)) = false /\
  translate_json (doc_leaf 5) [3] [10; 20] 2 = Ok (doc_leaf 18) /\
  found [7; 3] 4 = false /\ found [7; 3] (- 4) = false /\
  translate_json (doc_plain 4 3 (doc_leaf 1) (doc_leaf 0)) [7; 3] [10; -20] 2 = Undefined.
Proof. repeat split; vm_compute; reflexivity. Qed.

(** * Properties of the N-ary summarizer *)

Lemma is_null_true j : is_null j = true -> j = JNull.
Proof. by destruct j. Qed.




(** [std::max] and [std::min] on two numbers pick the larger and the
    smaller bound. *)
Lemma json_max_larger a b :
  is_bound a = true -> is_bound b = true -> is_null a = false -> is_null b = false ->
  json_max a b = larger_bound a b.
Proof.
  destruct a as [| |x|x| | |], b as [| |y|y| | |]; try done; intros _ _ _ _.
  unfold json_max, json_lt, larger_bound. simpl.
  destruct (Z.ltb_spec x y); f_equal; lia.
Qed.

Lemma json_min_smaller a b :
  is_bound a = true -> is_bound b = true -> is_null a = false -> is_null b = false ->
  json_min a b = smaller_bound a b.
Proof.
  destruct a as [| |x|x| | |], b as [| |y|y| | |]; try done; intros _ _ _ _.
  unfold json_min, json_lt, smaller_bound. simpl.
  destruct (Z.ltb_spec y x); f_equal; lia.
Qed.

(** [intersect] on two intervals is the bound-wise intersection. *)
Lemma intersect_interval plo phi lo hi :
  is_bound plo = true -> is_bound phi = true ->
  is_bound lo = true -> is_bound hi = true ->
  intersect (JArray [plo; phi]) (JArray [lo; hi])
  = Ok (JArray [meet_lower plo lo; meet_upper phi hi]).
Proof.
  intros Bplo Bphi Blo Bhi.
  unfold intersect, meet_lower, meet_upper. simpl.
  destruct (is_null plo) eqn:Hplo, (is_null lo) eqn:Hlo; simpl;
    destruct (is_null phi) eqn:Hphi, (is_null hi) eqn:Hhi; simpl;
    rewrite ?Hlo, ?Hhi; simpl;
    rewrite ?(json_max_larger plo lo), ?(json_min_smaller phi hi) by done;
    repeat match goal with
           | Hn : is_null ?j = true |- _ => apply is_null_true in Hn; subst j
           end; reflexivity.
Qed.

Lemma summarize_object m :
  summarize (JObject m) =
  if bool_decide (is_Some (m !! "feature")) then
    true_ ← summarize (get "true" m);
    false_ ← summarize (get "false" m);
    summarize_split (<["false" := false_]> (<["true" := true_]> m))
  else Ok (JObject m).
Proof.
  simpl. case_bool_decide; [|done].
  unfold get. rewrite !lookup_fmap.
  destruct (m !! "true"), (m !! "false"); reflexivity.
Qed.

Lemma touch_lookup key (m : gmap string json) key' :
  touch key m !! key' = if decide (key = key') then Some (get key m) else m !! key'.
Proof.
  unfold touch, get. destruct (m !! key) eqn:Hk; case_decide; subst; by simplify_map_eq.
Qed.

Lemma touch_present key (m : gmap string json) : is_Some (m !! key) -> touch key m = m.
Proof. intros [v Hv]. unfold touch. by rewrite Hv. Qed.

Lemma at_key_branch_in g t : at_key (branch g t) "in" = Ok g.
Proof. reflexivity. Qed.

Lemma at_key_branch_then g t : at_key (branch g t) "then" = Ok t.
Proof. reflexivity. Qed.









(** A document without a "feature" key is left as it is. *)
Lemma summarize_leaf node : contains "feature" node = false -> summarize node = Ok node.
Proof.
  destruct node as [| | | | | |m]; try done.
  simpl contains. intros Hc. by rewrite summarize_object, Hc.
Qed.

(** The fields of a split node after [summarize_split]. *)
Lemma summarize_split_fields (m : gmap string json) node :
  summarize_split m = Ok node ->
  exists branches,
    node = JObject (<["children" := JArray branches]>
                     (delete "false" (delete "true" (delete "relation" (delete "reference"
                        (touch "type" m)))))).
Proof.
  unfold summarize_split.
  destruct (json_eqb _ _), (json_eqb _ _), (json_eqb _ _);
    repeat (destruct (flatten _ _ _ _ _) as [?| |]; simpl; try done);
    intros [= <-]; by eexists.
Qed.

Lemma flatten_null_subtree integral rational categorical feature (child : gmap string json) :
  get "then" child = JNull ->
  flatten integral rational categorical feature (JObject child)
  = Ok [branch (get "in" child) JNull].
Proof. intros Hthen. unfold flatten. simpl. by rewrite Hthen. Qed.

(** [summarize_split] on a node without subtrees: both branches hold
    [null]. *)
Lemma summarize_split_no_subtrees (m : gmap string json) :
  get "true" m = JNull ->
  get "false" m = JNull ->
  exists g0 g1,
    summarize_split m =
    Ok (JObject (<["children" := JArray [branch g0 JNull; branch g1 JNull]]>
                  (delete "false" (delete "true" (delete "relation" (delete "reference"
                     (touch "type" m))))))).
Proof.
  intros Htrue Hfalse. unfold summarize_split.
  assert (HT : get "true" (touch "type" m) = JNull).
  { unfold get in *. rewrite touch_lookup. by case_decide. }
  assert (HF : get "false" (touch "type" m) = JNull).
  { unfold get in *. rewrite touch_lookup. by case_decide. }
  rewrite HT, HF.
  destruct (json_eqb _ _), (json_eqb _ _), (json_eqb _ _);
    rewrite !flatten_null_subtree by (unfold get; by simplify_map_eq);
    simpl; by do 2 eexists.
Qed.

(** Summarizing a summarized split node only replaces its branches, by
    two branches that hold [null]. *)
Lemma summarize_summarized (m : gmap string json) node1 :
  is_Some (m !! "feature") ->
  summarize (JObject m) = Ok node1 ->
  exists m1 g0 g1,
    node1 = JObject m1 /\
    summarize node1 =
    Ok (JObject (<["children" := JArray [branch g0 JNull; branch g1 JNull]]> m1)).
Proof.
  intros Hfeat. rewrite summarize_object, bool_decide_eq_true_2 by done.
  destruct (summarize (get "true" m)) as [T| |]; simpl; try done.
  destruct (summarize (get "false" m)) as [F| |]; simpl; try done.
  intros Hsplit. apply summarize_split_fields in Hsplit as [branches ->].
  set (m2 := <["false" := F]> (<["true" := T]> m)).
  set (m1 := <["children" := JArray branches]> _).
  assert (Hkeys : is_Some (m1 !! "feature") /\ m1 !! "true" = None /\ m1 !! "false" = None /\
                  m1 !! "reference" = None /\ m1 !! "relation" = None /\ is_Some (m1 !! "type")).
  { subst m1 m2. repeat split.
    - rewrite lookup_insert_ne, !lookup_delete_ne, touch_lookup by done.
      rewrite decide_False, !lookup_insert_ne by done. done.
    - by simplify_map_eq.
    - by simplify_map_eq.
    - by simplify_map_eq.
    - by simplify_map_eq.
    - rewrite lookup_insert_ne, !lookup_delete_ne, touch_lookup by done.
      by rewrite decide_True. }
  clearbody m1. clear m2. destruct Hkeys as (Hf1 & Ht1 & Hfa1 & Hr1 & Hrel1 & Hty1).
  rewrite summarize_object, bool_decide_eq_true_2 by done.
  unfold get at 1 2. rewrite Ht1, Hfa1. simpl.
  destruct (summarize_split_no_subtrees (<["false" := JNull]> (<["true" := JNull]> m1)))
    as (g0 & g1 & ->); [unfold get; by simplify_map_eq..|].
  exists m1, g0, g1. split; [done|]. do 2 f_equal.
  apply map_eq. intros key.
  destruct (decide (key = "children")) as [->|]; [by simplify_map_eq|].
  rewrite !(lookup_insert_ne _ "children") by done.
  destruct (decide (key = "false")) as [->|]; [by simplify_map_eq|].
  destruct (decide (key = "true")) as [->|]; [by simplify_map_eq|].
  destruct (decide (key = "relation")) as [->|]; [by simplify_map_eq|].
  destruct (decide (key = "reference")) as [->|]; [by simplify_map_eq|].
  rewrite !lookup_delete_ne, touch_lookup by done.
  case_decide; subst; simplify_map_eq; [|done].
  destruct Hty1 as [ty Hty1]. unfold get. by simplify_map_eq.
Qed.

(** C6 (amended): a document without a "feature" key is left unchanged by
    [summarize]; a summarized split node is rewritten when summarized
    again: its branches are replaced by two branches that hold [null],
    the rest of the node stays. *)
Theorem summarize_again node node1 :
  (contains "feature" node = false -> summarize node = Ok node) /\
  (contains "feature" node = true ->
   summarize node = Ok node1 ->
   exists m1 g0 g1,
     node1 = JObject m1 /\
     summarize node1 =
     Ok (JObject (<["children" := JArray [branch g0 JNull; branch g1 JNull]]> m1))).
Proof.
  split; [apply summarize_leaf|].
  destruct node as [| | | | | |m]; try done.
  simpl contains. intros Hc%bool_decide_eq_true_1. by apply summarize_summarized.
Qed.

(** C6, as stated, fails: a split on feature 1 with two leaves is
    summarized into a node with two branches; summarizing that node again
    replaces both leaves by [null]. *)
Lemma summarize_not_idempotent :
  summarize (doc_split 1 "integral" (JInt 5) (doc_leaf 1) (doc_leaf 0))
  = Ok (doc_nary 1 "integral" [branch (JArray [JInt 5; JNull]) (doc_leaf 1);
                               branch (JArray [JNull; JInt 5]) (doc_leaf 0)]) /\
  summarize (doc_nary 1 "integral" [branch (JArray [JInt 5; JNull]) (doc_leaf 1);
                                    branch (JArray [JNull; JInt 5]) (doc_leaf 0)])
  = Ok (doc_nary 1 "integral" [branch (JArray [JNull; JNull]) JNull;
                               branch (JArray [JNull; JNull]) JNull]) /\
  summarize (doc_nary 1 "integral" [branch (JArray [JInt 5; JNull]) (doc_leaf 1);
                                    branch (JArray [JNull; JInt 5]) (doc_leaf 0)])
  <> Ok (doc_nary 1 "integral" [branch (JArray [JInt 5; JNull]) (doc_leaf 1);
                                branch (JArray [JNull; JInt 5]) (doc_leaf 0)]).
Proof.
  split; [vm_compute; reflexivity|]. split; [vm_compute; reflexivity|].
  intros Heq.
  apply (f_equal (fun r => match r with
                           | Ok j => json_items (get_of j "children")
                           | _ => []
                           end)) in Heq.
  vm_compute in Heq. discriminate Heq.
Qed.

Lemma summarize_again_witness :
  summarize (doc_leaf 1) = Ok (doc_leaf 1) /\
  exists m1 g0 g1,
    doc_nary 1 "integral" [branch (JArray [JInt 5; JNull]) (doc_leaf 1);
                           branch (JArray [JNull; JInt 5]) (doc_leaf 0)] = JObject m1 /\
    summarize (doc_nary 1 "integral" [branch (JArray [JInt 5; JNull]) (doc_leaf 1);
                                      branch (JArray [JNull; JInt 5]) (doc_leaf 0)]) =
    Ok (JObject (<["children" := JArray [branch g0 JNull; branch g1 JNull]]> m1)).
Proof.
  split.
  - apply (proj1 (summarize_again (doc_leaf 1) JNull)). reflexivity.
  - apply (proj2 (summarize_again
                    (doc_split 1 "integral" (JInt 5) (doc_leaf 1) (doc_leaf 0)) _)).
    + reflexivity.
    + vm_compute. reflexivity.
Defined.

(** * The canonicalization on concrete trees *)

#[export] Instance bits_laws : BitmaskLaws (list bool).
Proof.
  constructor. intros b. unfold bitmask_neq. simpl.
  by rewrite bool_decide_eq_true_2.
Qed.

Lemma operator_eq_order_sensitive_witness :
  bitmask_neq rows_A rows_B = true /\
  operator_eq (Split 1 1 leaf_A leaf_B) (Split 2 2 leaf_B leaf_A) = false.
Proof.
  split; [reflexivity|].
  apply (operator_eq_order_sensitive rows_A rows_B). reflexivity.
Defined.

Lemma operator_eq_hash_only_leaf_sequence_witness :
  dfs_capture_sets tree_right = dfs_capture_sets tree_left /\
  operator_eq tree_right tree_left = true /\
  hash tree_right = hash tree_left.
Proof.
  split; [reflexivity|].
  destruct (operator_eq_hash_only_leaf_sequence tree_right tree_left eq_refl)
    as (Heq & Hhash & _).
  by split.
Defined.

Lemma operator_eq_spec_witness :
  operator_eq tree_right tree_left = true /\
  operator_eq tree_right leaf_A = false /\
  operator_eq tree_right (Split 1 1 leaf_A leaf_B) = false.
Proof.
  split; [|split].
  - apply (proj1 (proj2 (operator_eq_spec tree_right tree_left))); [reflexivity|].
    split; [reflexivity|].
    intros [|[|[|i]]] a b; simpl; intros [= <-] [= <-]; reflexivity.
  - apply (proj1 (operator_eq_spec tree_right leaf_A)). vm_compute. discriminate.
  - apply (proj2 (proj2 (operator_eq_spec tree_right (Split 1 1 leaf_A leaf_B)))).
    vm_compute. discriminate.
Defined.

Lemma hash_fold_of_partitions_witness :
  hash tree_right =
    fold_left hash_combine [bits_hash rows_A; bits_hash rows_B; bits_hash rows_C] 3 /\
  bitmask_hash <$> dfs_capture_sets tree_right = bitmask_hash <$> dfs_capture_sets tree_left /\
  hash tree_right = hash tree_left.
Proof.
  split; [|split; [reflexivity|]].
  - exact (proj1 (hash_fold_of_partitions tree_right tree_right)).
  - apply (proj1 (proj2 (hash_fold_of_partitions tree_right tree_left))). reflexivity.
Defined.

(** * The model on concrete inputs *)

Example partitions_tree_right : partitions tree_right [] = [rows_A; rows_B; rows_C].
Proof. reflexivity. Qed.

(** One leaf: the seed 1 is mixed with the row-set's hash 28. *)
Example hash_leaf_A : hash leaf_A = Z.lxor 1 (28 + 2654435769 + 64 + 0).
Proof. reflexivity. Qed.

Example hash_tree_right : hash tree_right = 11093819454021.
Proof. vm_compute. reflexivity. Qed.

Example operator_eq_fewer_leaves : operator_eq tree_right (Split 1 1 leaf_A leaf_B) = false.
Proof. vm_compute. reflexivity. Qed.

(** [1 + (2^-24 + 2^-24)] is the float after [1]; [(1 + 2^-24) + 2^-24] is [1]. *)
Example loss_tree_right : loss tree_right = S754_finite false 8388609 (-23).
Proof. vm_compute. reflexivity. Qed.

Example loss_tree_left : loss tree_left = f32_one.
Proof. vm_compute. reflexivity. Qed.

Example intersect_lower_and_upper :
  intersect (JArray [JInt 5; JInt 9]) (JArray [JInt 7; JInt 8]) = Ok (JArray [JInt 7; JInt 8]) /\
  intersect (JArray [JInt 5; JNull]) (JArray [JNull; JInt 8]) = Ok (JArray [JInt 5; JInt 8]) /\
  intersect (JArray [JNull; JNull]) (JArray [JNull; JNull]) = Ok (JArray [JNull; JNull]).
Proof. repeat split; vm_compute; reflexivity. Qed.

(** A split as [_to_json] writes it has no "type": its branches get no
    guard, and the node gains a "type" field holding [null]. *)
Example summarize_plain_split :
  summarize (doc_plain 4 3 (doc_leaf 1) (doc_leaf 0)) =
  Ok (JObject (<["feature" := JInt 4]>
              (<["orig_feature" := JInt 3]>
              (<["type" := JNull]>
              (<["children" := JArray [branch JNull (doc_leaf 1); branch JNull (doc_leaf 0)]]>
                 ∅))))).
Proof. vm_compute. reflexivity. Qed.

(** A leaf whose index is in the main table, and one whose index is
    missing while the alternate table is no longer than the main one. *)
Example translate_json_leaf_found :
  translate_json (doc_leaf 5) [7; 3] [10; 20] 2 = Ok (doc_leaf 8).
Proof. vm_compute. reflexivity. Qed.

Example translate_json_leaf_out_of_range :
  translate_json (doc_leaf 5) [3] [10] 2 = Throw out_of_range.
Proof. vm_compute. reflexivity. Qed.

(** * Further properties: equality as a relation *)

Section EqualityRelation.
Context {Bitmask : Type} `{BitmaskOps Bitmask}.
Implicit Types (x y z : Model Bitmask) (l : list Bitmask).

Lemma masks_loop_sym l1 l2 :
  (forall a b : Bitmask, bitmask_neq a b = bitmask_neq b a) ->
  masks_loop l1 l2 = masks_loop l2 l1.
Proof.
  intros Hsym. revert l2. induction l1 as [|a l1 IH]; intros [|b l2]; simpl; try done.
  rewrite (Hsym a b). by rewrite IH.
Qed.

Lemma operator_eq_true x y :
  operator_eq x y = true <->
  hash x = hash y /\
  Forall2 (fun a b => bitmask_neq a b = false) (partitions x []) (partitions y []).
Proof.
  rewrite operator_eq_unfold, !andb_true_iff, Z.eqb_eq, Nat.eqb_eq. split.
  - intros (Hhash & Hlen & Hloop). split; [done|]. by apply masks_loop_true.
  - intros (Hhash & Hall). split; [done|].
    pose proof (Forall2_length _ _ _ Hall) as Hlen. split; [done|].
    by apply masks_loop_true.
Qed.

(** X1: when [!=] on row-sets is symmetric, [operator==] gives the same
    answer with its two operands exchanged. *)
Theorem operator_eq_symmetric x y :
  (forall a b : Bitmask, bitmask_neq a b = bitmask_neq b a) ->
  operator_eq x y = operator_eq y x.
Proof.
  intros Hsym. rewrite !operator_eq_unfold.
  rewrite (Z.eqb_sym (hash x)), (Nat.eqb_sym (length (partitions x []))).
  by rewrite (masks_loop_sym _ _ Hsym).
Qed.

(** X2: when [!=] on row-sets is the complement of a transitive relation,
    [operator==] is transitive; and two trees that [operator==] accepts
    have the same [hash] and the same number of leaves. *)
Theorem operator_eq_transitive x y z :
  (forall a b c : Bitmask,
      bitmask_neq a b = false -> bitmask_neq b c = false -> bitmask_neq a c = false) ->
  operator_eq x y = true ->
  operator_eq y z = true ->
  operator_eq x z = true /\ hash x = hash z /\
  length (partitions x []) = length (partitions z []).
Proof.
  intros Htrans [Hxy Axy]%operator_eq_true [Hyz Ayz]%operator_eq_true.
  assert (Axz : Forall2 (fun a b => bitmask_neq a b = false)
                        (partitions x []) (partitions z [])).
  { revert Ayz. generalize (partitions z []).
    induction Axy as [|a b l1 l2 Hab _ IH]; intros l3 Hyz'.
    - by inversion Hyz'.
    - inversion Hyz' as [|? c ? l3' Hbc Hrest]; subst.
      constructor; [by eapply Htrans|by apply IH]. }
  split; [|split].
  - apply operator_eq_true. split; [congruence|done].
  - congruence.
  - by eapply Forall2_length.
Qed.

End EqualityRelation.

Lemma bits_neq_sym (a b : list bool) : bitmask_neq a b = bitmask_neq b a.
Proof.
  unfold bitmask_neq. simpl. f_equal. apply bool_decide_ext. split; congruence.
Qed.

Lemma bits_neq_trans (a b c : list bool) :
  bitmask_neq a b = false -> bitmask_neq b c = false -> bitmask_neq a c = false.
Proof.
  unfold bitmask_neq. simpl.
  intros Hab%negb_false_iff%bool_decide_eq_true_1 Hbc%negb_false_iff%bool_decide_eq_true_1.
  subst. by rewrite bool_decide_eq_true_2.
Qed.

Lemma operator_eq_symmetric_witness :
  operator_eq tree_right tree_left = operator_eq tree_left tree_right /\
  operator_eq tree_right leaf_A = operator_eq leaf_A tree_right.
Proof.
  split; apply operator_eq_symmetric; apply bits_neq_sym.
Defined.

Lemma operator_eq_transitive_witness :
  operator_eq tree_right (Split 9 9 leaf_A (Split 8 8 leaf_B leaf_C)) = true /\
  hash tree_right = hash (Split 9 9 leaf_A (Split 8 8 leaf_B leaf_C)).
Proof.
  destruct (operator_eq_transitive tree_right tree_left
              (Split 9 9 leaf_A (Split 8 8 leaf_B leaf_C)))
    as (Heq & Hhash & _).
  - exact bits_neq_trans.
  - vm_compute. reflexivity.
  - vm_compute. reflexivity.
  - by split.
Defined.

(** * Further properties: serialization *)

Section SerializationFacts.
Context {Bitmask : Type}.
Implicit Types (m : TranslatedModel Bitmask) (d : Dataset Bitmask).

Lemma set_key_object (m0 : gmap string json) key v :
  set_key (JObject m0) key v = Ok (JObject (<[key := v]> m0)).
Proof. reflexivity. Qed.

(** Writing an untranslated tree into the empty object. *)
Lemma _to_json_empty m d :
  untranslated m = true ->
  _to_json m d (JObject ∅) =
  Ok (JObject (plain_fields (fun _ => regularization (m_config d)) (forget m))).
Proof.
  induction m as [t l c s tables|bf f n IHn p IHp tables]; intros Hun; simpl in *.
  - reflexivity.
  - apply andb_true_iff in Hun as [Hun Hp]. apply andb_true_iff in Hun as [Hun Hn].
    apply andb_true_iff in Hun as [Hneg%bool_decide_eq_true_1 Hpos%bool_decide_eq_true_1].
    rewrite IHn, IHp by done. simpl. rewrite Hneg, Hpos. reflexivity.
Qed.

(** X3: [_to_json] of a tree none of whose splits has a translator table
    adds the fields of the tree's plain document to the node it is given,
    over the node's own fields of the same names; [null] counts as the
    empty object, and any other node that is not an object is refused with
    a [type_error].  The complexity written for a leaf is the dataset's
    regularization, not the leaf's stored complexity. *)
Theorem _to_json_merges m d node :
  untranslated m = true ->
  _to_json m d node =
  match node with
  | JNull => Ok (JObject (plain_fields (fun _ => regularization (m_config d)) (forget m)))
  | JObject m0 =>
      Ok (JObject (plain_fields (fun _ => regularization (m_config d)) (forget m) ∪ m0))
  | _ => Throw type_error
  end.
Proof.
  intros Hun.
  destruct m as [t l c s tables|bf f n p tables].
  - destruct node; try reflexivity. simpl.
    by rewrite <- !insert_union_l, (left_id_L ∅ (∪)).
  - simpl in Hun.
    apply andb_true_iff in Hun as [Hun Hp]. apply andb_true_iff in Hun as [Hun Hn].
    apply andb_true_iff in Hun as [Hneg%bool_decide_eq_true_1 Hpos%bool_decide_eq_true_1].
    destruct node; try reflexivity; simpl;
      rewrite !_to_json_empty by done; simpl; rewrite Hneg, Hpos; simpl; try reflexivity.
    by rewrite <- !insert_union_l, (left_id_L ∅ (∪)).
Qed.

Lemma constructed_untranslated d m : constructed d m -> untranslated m = true.
Proof.
  induction 1 as [|bf n p _ IHn _ IHp]; simpl; [done|].
  by rewrite IHn, IHp.
Qed.

Lemma constructed_fields d m (g : float -> float) :
  constructed d m ->
  (forall c, g c = regularization (m_config d)) ->
  plain_fields g (forget m) = plain_fields (fun c => c) (forget m).
Proof.
  intros Hc Hg. induction Hc as [|bf n p _ IHn _ IHp]; simpl.
  - by rewrite Hg.
  - by rewrite IHn, IHp.
Qed.

(** X4: a tree assembled by the two constructors over a dataset, and not
    translated since, is serialized with that dataset (binary output) into
    the document of its stored fields: every leaf with its own prediction,
    loss and complexity, every split with its binary feature and the
    original feature the dataset maps it to. *)
Theorem serialized_document_constructed d m :
  constructed d m ->
  non_binary (m_config d) = false ->
  serialized_document m d = Ok (JObject (plain_fields (fun c => c) (forget m))) /\
  forall bf f n p, forget m = Split bf f n p -> f = original_feature d bf.
Proof.
  intros Hc Hbin. split.
  - unfold serialized_document, to_json.
    rewrite _to_json_empty by (by eapply constructed_untranslated). simpl.
    rewrite Hbin. by rewrite (constructed_fields d m _ Hc).
  - intros bf f n p. destruct Hc; simpl; [done|]. by intros [= <- <- _ _].
Qed.

End SerializationFacts.

Lemma _to_json_merges_witness :
  _to_json rows_tree rows_dataset (JObject (<["name" := JString "root"]> ∅)) =
  Ok (JObject (<["name" := JString "root"]>
              (<["feature" := JInt 3]>
              (<["orig_feature" := JInt 1]>
              (<["false" := doc_leaf 0]>
              (<["true" := doc_leaf 1]> ∅)))))).
Proof.
  rewrite (_to_json_merges rows_tree rows_dataset _ eq_refl).
  vm_compute. reflexivity.
Defined.

Lemma serialized_document_constructed_witness :
  serialized_document rows_tree rows_dataset =
  Ok (doc_plain 3 1 (doc_leaf 1) (doc_leaf 0)).
Proof.
  destruct (serialized_document_constructed rows_dataset rows_tree) as [Hdoc _].
  - repeat constructor.
  - reflexivity.
  - rewrite Hdoc. vm_compute. reflexivity.
Defined.

(** * Further properties: the index translator *)

Lemma to_int_range z : INT_MIN <= to_int z <= INT_MAX.
Proof.
  unfold to_int, INT_MIN, INT_MAX.
  pose proof (Z.mod_pos_bound (z + 2 ^ 31) (2 ^ 32) ltac:(lia)). lia.
Qed.

Lemma to_int_id z : INT_MIN <= z <= INT_MAX -> to_int z = z.
Proof.
  unfold to_int, INT_MIN, INT_MAX. intros Hz.
  rewrite Z.mod_small by lia. lia.
Qed.

Lemma to_int_add_l a b : to_int (to_int a + b) = to_int (a + b).
Proof.
  unfold to_int. f_equal.
  replace ((a + 2 ^ 31) mod 2 ^ 32 - 2 ^ 31 + b + 2 ^ 31)
    with ((a + 2 ^ 31) mod 2 ^ 32 + b) by lia.
  rewrite Zplus_mod_idemp_l. f_equal. lia.
Qed.

Lemma to_int_add_sub z n : to_int (to_int (z + n) - n) = to_int z.
Proof.
  replace (to_int (z + n) - n) with (to_int (z + n) + - n) by lia.
  rewrite to_int_add_l. f_equal. lia.
Qed.

Lemma find_distance_found (v : translation_type) x idx c :
  list_find (fun y => y = x) v = Some (idx, c) ->
  find_distance v x = idx /\ found v x = true /\ v !! idx = Some x.
Proof.
  intros Hfind. pose proof (find_distance_list_find v x) as Hd.
  rewrite Hfind in Hd. destruct Hd as [Hd Hf].
  apply list_find_Some in Hfind as (Hl & -> & _). done.
Qed.

(** What [table_position] says about the table. *)
Lemma table_position_entry main z idx flip :
  table_position main z = Some (idx, flip) ->
  (flip = false /\ main !! idx = Some z) \/
  (flip = true /\ main !! idx = Some (- z) /\ list_find (fun x => x = z) main = None).
Proof.
  unfold table_position.
  destruct (list_find (fun x => x = z) main) as [[i c]|] eqn:Hdirect.
  - intros [= <- <-]. left. by apply find_distance_found in Hdirect as (_ & _ & ?).
  - destruct (list_find (fun x => x = - z) main) as [[i c]|] eqn:Hneg; [|done].
    intros [= <- <-]. right. by apply find_distance_found in Hneg as (_ & _ & ?).
Qed.

Lemma translate_json_prediction (m : gmap string json) main alternative n_features z :
  m !! "prediction" = Some (JInt z) ->
  translate_json (JObject m) main alternative n_features =
  entry ← vector_at alternative (find_distance main (to_int (to_int z + n_features)));
  Ok (JObject (<["prediction" := JInt (to_int (entry - n_features))]> m)).
Proof.
  intros Hpred. rewrite translate_json_object.
  rewrite bool_decide_eq_true_2 by (by rewrite Hpred).
  unfold get. by rewrite Hpred.
Qed.

(** The node a split is rewritten into, in one piece. *)
Lemma translate_json_feature (m : gmap string json) main alternative n_features
    z idx flip a F T :
  m !! "prediction" = None ->
  m !! "feature" = Some (JInt z) ->
  INT_MIN < z <= INT_MAX ->
  table_position main z = Some (idx, flip) ->
  alternative !! idx = Some a ->
  a <> INT_MIN ->
  translate_json (get "false" m) main alternative n_features = Ok F ->
  translate_json (get "true" m) main alternative n_features = Ok T ->
  translate_json (JObject m) main alternative n_features =
  Ok (JObject (if xorb flip (a <? 0)
               then swap_branches (<["true" := T]> (<["false" := F]>
                                     (<["feature" := JInt (Z.abs a)]> m)))
               else <["true" := T]> (<["false" := F]> (<["feature" := JInt (Z.abs a)]> m)))).
Proof.
  intros Hpred Hfeat Hz Hpos Ha Hamin HF HT.
  rewrite translate_json_object.
  rewrite bool_decide_eq_false_2 by (rewrite Hpred; by intros [? ?]).
  rewrite bool_decide_eq_true_2 by (by rewrite Hfeat).
  assert (Hgf : get "feature" m = JInt z) by (unfold get; by rewrite Hfeat).
  rewrite Hgf. simpl. rewrite to_int_id by (unfold INT_MIN in *; lia). simpl.
  assert (Hzmin : z <> INT_MIN) by lia.
  rewrite (normal_index_of_position _ _ _ _ Hzmin Hpos). simpl.
  unfold vector_at. rewrite Ha. simpl.
  unfold int_abs. rewrite (proj2 (Z.eqb_neq _ _) Hamin). simpl.
  rewrite HF. simpl. rewrite HT. simpl.
  by destruct flip, (a <? 0).
Qed.

(** X5: at a leaf node (a node with a prediction, whether or not it also
    has a feature) whose prediction, offset by the feature count, first
    stands at position [idx] of the main table, the prediction becomes the
    alternate table's entry at [idx] offset back by the feature count; the
    node's other fields are untouched. *)
Theorem translate_json_leaf (m : gmap string json) main alternative n_features p idx c e :
  is_Some (m !! "prediction") ->
  json_to_int (get "prediction" m) = Ok p ->
  list_find (fun x => x = to_int (p + n_features)) main = Some (idx, c) ->
  alternative !! idx = Some e ->
  translate_json (JObject m) main alternative n_features =
  Ok (JObject (<["prediction" := JInt (to_int (e - n_features))]> m)).
Proof.
  intros Hpred Hp Hfind He. rewrite translate_json_object.
  rewrite bool_decide_eq_true_2 by done. rewrite Hp. simpl.
  apply find_distance_found in Hfind as (-> & _ & _).
  unfold vector_at. by rewrite He.
Qed.

Lemma translate_json_leaf_witness :
  translate_json (doc_leaf 5) [9; 7; 3] [4; 10; 20] 2 = Ok (doc_leaf 8).
Proof.
  unfold doc_leaf at 1.
  rewrite (translate_json_leaf _ [9; 7; 3] [4; 10; 20] 2 5 1%nat 7 10);
    vm_compute; (reflexivity || by eexists).
Defined.

(** X6: translating a document with the main table as its own alternate
    table gives the document back, when every index the document needs is
    in the table, its predictions are [int] values and its feature ids are
    non-negative [int] values. *)
Theorem translate_json_same_table main n_features doc :
  own_indices main n_features doc ->
  translate_json doc main main n_features = Ok doc.
Proof.
  induction 1 as [m z idx c Hpred Hz Hfind
                 |m z idx flip f t Hpred Hfeat Hz Hpos Hf Ht _ IHf _ IHt].
  - rewrite (translate_json_prediction _ _ _ _ z Hpred), (to_int_id z) by done.
    apply find_distance_found in Hfind as (-> & _ & Hentry).
    unfold vector_at. rewrite Hentry. simpl.
    rewrite to_int_add_sub, to_int_id by done. by rewrite insert_id.
  - assert (HgF : get "false" m = f) by (unfold get; by rewrite Hf).
    assert (HgT : get "true" m = t) by (unfold get; by rewrite Ht).
    destruct (table_position_entry _ _ _ _ Hpos) as [[-> Hentry]|(-> & Hentry & Hnone)].
    + rewrite (translate_json_feature m main main n_features z idx false z f t);
        try done; try (unfold INT_MIN, INT_MAX in *; lia); try congruence.
      rewrite (proj2 (Z.ltb_ge _ _)) by lia. simpl.
      rewrite Z.abs_eq by lia. by rewrite !insert_id by (by simplify_map_eq).
    + assert (Hz0 : z <> 0).
      { intros ->. apply list_find_None in Hnone.
        apply list_elem_of_lookup_2 in Hentry.
        rewrite Forall_forall in Hnone. by apply (Hnone _ Hentry). }
      rewrite (translate_json_feature m main main n_features z idx true (- z) f t);
        try done; try (unfold INT_MIN, INT_MAX in *; lia); try congruence.
      rewrite (proj2 (Z.ltb_lt _ _)) by lia. simpl.
      rewrite Z.abs_neq, Z.opp_involutive by lia.
      by rewrite !insert_id by (by simplify_map_eq).
Qed.

Lemma translate_json_same_table_witness :
  translate_json (doc_plain 4 3 (doc_leaf 1) (doc_leaf 0)) [2; 3; -4] [2; 3; -4] 2
  = Ok (doc_plain 4 3 (doc_leaf 1) (doc_leaf 0)).
Proof.
  apply translate_json_same_table.
  eapply (own_indices_split _ _ _ 4 2%nat true (doc_leaf 0) (doc_leaf 1));
    try (vm_compute; (reflexivity || (split; discriminate))).
  - eapply (own_indices_leaf _ _ _ 0 0%nat 2);
      vm_compute; (reflexivity || (split; discriminate)).
  - eapply (own_indices_leaf _ _ _ 1 1%nat 3);
      vm_compute; (reflexivity || (split; discriminate)).
Defined.

Lemma list_find_NoDup (v : translation_type) i x :
  NoDup v -> v !! i = Some x -> list_find (fun y => y = x) v = Some (i, x).
Proof.
  intros Hnd Hi. apply list_find_Some. split; [done|]. split; [done|].
  intros j y Hj Hlt ->. pose proof (NoDup_lookup _ _ _ _ Hnd Hi Hj). lia.
Qed.

(** Where the absolute value of an entry of a reversible table is found
    in it: at the entry's own position, through its negation when the
    entry is negative. *)
Lemma table_position_abs alternative idx a :
  reversible_table alternative ->
  alternative !! idx = Some a ->
  table_position alternative (Z.abs a) = Some (idx, a <? 0).
Proof.
  intros (Hnd & _ & Hclash) Ha. unfold table_position.
  destruct (Z.ltb_spec a 0) as [Hneg|Hpos].
  - rewrite Z.abs_neq by lia.
    assert (Hnone : list_find (fun x => x = - a) alternative = None).
    { apply list_find_None, Forall_forall. intros y Hy ->.
      apply (Hclash a); [by eapply list_elem_of_lookup_2|done|done]. }
    rewrite Hnone, Z.opp_involutive. by rewrite (list_find_NoDup _ idx a).
  - rewrite Z.abs_eq by lia. by rewrite (list_find_NoDup _ idx a).
Qed.

(** X7: when the alternate table can be read backwards (no entry twice, no
    entry beside its negation, no [INT_MIN]), translating a document from
    the main table to the alternate one and then from the alternate table
    back to the main one gives the document back: predictions, feature ids
    and the order of the subtrees. *)
Theorem translate_json_round_trip main alternative n_features doc :
  reversible_table alternative ->
  translates main alternative n_features doc ->
  exists doc1,
    translate_json doc main alternative n_features = Ok doc1 /\
    translate_json doc1 alternative main n_features = Ok doc.
Proof.
  intros Hrev Hdoc. pose proof Hrev as (Hnd & Hrange & Hclash).
  induction Hdoc as [m z idx c e Hpred Hz Hfind He
                    |m z idx flip a f t Hpred Hfeat Hz Hpos Ha Hswap Hf Ht
                       _ (F1 & HF1 & HF2) _ (T1 & HT1 & HT2)].
  - apply find_distance_found in Hfind as (Hdist & _ & Hentry).
    assert (Herange : INT_MIN <= e <= INT_MAX).
    { rewrite Forall_forall in Hrange.
      pose proof (Hrange e (list_elem_of_lookup_2 _ _ _ He)). lia. }
    eexists. split.
    + rewrite (translate_json_prediction _ _ _ _ z Hpred), (to_int_id z) by done.
      rewrite Hdist. unfold vector_at. rewrite He. reflexivity.
    + rewrite (translate_json_prediction _ _ _ _ (to_int (e - n_features)))
        by (by simplify_map_eq).
      rewrite (to_int_id (to_int _)) by apply to_int_range.
      replace (to_int (e - n_features) + n_features)
        with (to_int (e + - n_features) + n_features) by (f_equal; f_equal; lia).
      rewrite to_int_add_l.
      replace (e + - n_features + n_features) with e by lia.
      rewrite (to_int_id e) by done.
      destruct (find_distance_found alternative e idx e) as (-> & _ & _);
        [by apply list_find_NoDup|].
      unfold vector_at. rewrite Hentry. simpl.
      rewrite to_int_add_sub, (to_int_id z) by done.
      by rewrite insert_insert_eq, insert_id.
  - assert (HgF : get "false" m = f) by (unfold get; by rewrite Hf).
    assert (HgT : get "true" m = t) by (unfold get; by rewrite Ht).
    assert (Harange : INT_MIN < a <= INT_MAX).
    { rewrite Forall_forall in Hrange.
      apply (Hrange a (list_elem_of_lookup_2 _ _ _ Ha)). }
    (* the entry of the main table and the sign bookkeeping *)
    assert (Hb : exists b, main !! idx = Some b /\ Z.abs b = z /\ (b <? 0) = flip /\
                           b <> INT_MIN).
    { destruct (table_position_entry _ _ _ _ Hpos) as [[-> Hentry]|(-> & Hentry & Hnone)].
      - exists z. repeat split; [done|lia| |unfold INT_MIN; lia].
        apply Z.ltb_ge. lia.
      - assert (Hz0 : z <> 0).
        { intros ->. apply list_find_None in Hnone.
          apply list_elem_of_lookup_2 in Hentry.
          rewrite Forall_forall in Hnone. by apply (Hnone _ Hentry). }
        exists (- z). repeat split; [done|lia| |unfold INT_MIN, INT_MAX in *; lia].
        apply Z.ltb_lt. lia. }
    destruct Hb as (b & Hmain & Habs & Hsign & Hbmin).
    eexists. split.
    + apply (translate_json_feature m main alternative n_features z idx flip a F1 T1);
        try done; try congruence; unfold INT_MIN in *; lia.
    + set (m' := <["true" := T1]> (<["false" := F1]> (<["feature" := JInt (Z.abs a)]> m))).
      set (fl := xorb flip (a <? 0)).
      set (m1 := if fl then swap_branches m' else m').
      assert (Hm1 : forall key,
                 m1 !! key =
                 if decide (key = "swap") then None
                 else if decide (key = "false") then Some (if fl then T1 else F1)
                 else if decide (key = "true") then Some (if fl then F1 else T1)
                 else if decide (key = "feature") then Some (JInt (Z.abs a))
                 else m !! key).
      { intros key. subst m1 m'. destruct fl.
        - rewrite swap_branches_lookup. unfold get.
          repeat case_decide; subst; by simplify_map_eq.
        - repeat case_decide; subst; by simplify_map_eq. }
      clearbody m1. clear m'.
      rewrite (translate_json_feature m1 alternative main n_features (Z.abs a) idx
                 (a <? 0) b (if fl then t else f) (if fl then f else t)).
      * f_equal. f_equal. rewrite Hsign, Habs.
        replace (xorb (a <? 0) flip) with fl by (subst fl; apply xorb_comm).
        apply map_eq. intros key. destruct fl.
        -- rewrite swap_branches_lookup. unfold get.
           repeat case_decide; subst; simplify_map_eq; try done.
           destruct (decide (key = "feature")) as [->|]; [by simplify_map_eq|].
           rewrite lookup_insert_ne, Hm1 by done.
           by repeat (rewrite decide_False by done).
        -- destruct (decide (key = "true")) as [->|]; [by simplify_map_eq|].
           destruct (decide (key = "false")) as [->|]; [by simplify_map_eq|].
           destruct (decide (key = "feature")) as [->|]; [by simplify_map_eq|].
           rewrite !lookup_insert_ne, Hm1 by done.
           repeat case_decide; subst; done.
      * rewrite Hm1. by simplify_map_eq.
      * rewrite Hm1. done.
      * unfold INT_MIN, INT_MAX in *. lia.
      * by apply table_position_abs.
      * done.
      * done.
      * unfold get. rewrite Hm1. simpl. by destruct fl.
      * unfold get. rewrite Hm1. simpl. by destruct fl.
Qed.

Lemma translate_json_round_trip_witness :
  exists doc1,
    translate_json (doc_plain 4 3 (doc_leaf 1) (doc_leaf 0)) [2; 3; -4] [3; 2; 6] 2 = Ok doc1 /\
    translate_json doc1 [3; 2; 6] [2; 3; -4] 2 = Ok (doc_plain 4 3 (doc_leaf 1) (doc_leaf 0)).
Proof.
  apply translate_json_round_trip.
  - repeat split.
    + compute_done.
    + repeat (constructor; [unfold INT_MIN, INT_MAX; lia|]). constructor.
    + intros a Ha Hneg.
      repeat (apply elem_of_cons in Ha as [->|Ha]; [lia|]). by apply elem_of_nil in Ha.
  - eapply (translates_split _ _ _ _ 4 2%nat true 6 (doc_leaf 0) (doc_leaf 1));
      try (vm_compute; (reflexivity || (split; discriminate))).
    + eapply (translates_leaf _ _ _ _ 0 0%nat 2 3);
        vm_compute; (reflexivity || (split; discriminate)).
    + eapply (translates_leaf _ _ _ _ 1 1%nat 3 2);
        vm_compute; (reflexivity || (split; discriminate)).
Defined.

(** * Further properties: the N-ary summarizer *)

Lemma mapM_Ok {A B} (f : A -> result B) (l : list A) (r : list B) :
  mapM f l = Ok r -> Forall2 (fun x y => f x = Ok y) l r.
Proof.
  revert r. induction l as [|x l IH]; intros r; simpl.
  - intros [= <-]. constructor.
  - destruct (f x) as [y| |] eqn:Hx; simpl; try done.
    destruct (mapM f l) as [k| |]; simpl; try done.
    intros [= <-]. constructor; [done|by apply IH].
Qed.

Lemma promote_branches integral rational categorical condition sub l :
  promote integral rational categorical condition sub = Ok l -> Forall is_branch l.
Proof.
  unfold promote.
  destruct (at_key sub "in") as [subcondition| |]; simpl; try done.
  destruct (at_key sub "then") as [grandchild| |]; simpl; try done.
  destruct (integral || rational).
  - destruct (at_idx subcondition 0); simpl; try done.
    destruct (at_idx subcondition 1); simpl; try done.
    destruct (intersect _ _); simpl; try done.
    intros [= <-]. repeat constructor. by do 2 eexists.
  - destruct categorical; intros [= <-]; repeat constructor. by do 2 eexists.
Qed.

Lemma flatten_branches integral rational categorical feature it l :
  flatten integral rational categorical feature it = Ok l -> Forall is_branch l.
Proof.
  unfold flatten.
  destruct (at_key it "in") as [condition| |]; simpl; try done.
  destruct (at_key it "then") as [child| |]; simpl; try done.
  destruct (_ && _).
  - destruct (mapM _ _) as [parts| |] eqn:Hparts; simpl; try done.
    intros [= <-]. apply mapM_Ok in Hparts.
    induction Hparts as [|sub part subs parts Hsub _ IH]; simpl; [constructor|].
    apply Forall_app. split; [by eapply promote_branches|done].
  - intros [= <-]. repeat constructor. by do 2 eexists.
Qed.

Lemma summarize_split_branches (m : gmap string json) node :
  summarize_split m = Ok node ->
  exists branches,
    Forall is_branch branches /\
    node = JObject (<["children" := JArray branches]>
                     (delete "false" (delete "true" (delete "relation" (delete "reference"
                        (touch "type" m)))))).
Proof.
  unfold summarize_split.
  destruct (json_eqb _ _), (json_eqb _ _), (json_eqb _ _);
    (destruct (flatten _ _ _ _ (JObject (<["then" := get "true" _]> _)))
       as [from0| |] eqn:Hfrom0 ||
     destruct (flatten _ _ _ _ (JObject (<["in" := _]> (<["then" := get "true" _]> _))))
       as [from0| |] eqn:Hfrom0);
    simpl; try done;
    (destruct (flatten _ _ _ _ _) as [from1| |] eqn:Hfrom1 in |- *); simpl; try done;
    intros [= <-]; eexists; (split; [|reflexivity]);
    apply Forall_app; split; by eapply flatten_branches.
Qed.

(** The branches of a summarized document that still has a "feature". *)
Lemma summarized_children node node1 :
  summarize node = Ok node1 ->
  contains "feature" node1 = true ->
  exists branches,
    get_of node1 "children" = JArray branches /\ Forall is_branch branches.
Proof.
  destruct node as [| | | | | |m]; try (intros [= <-]; done).
  rewrite summarize_object. case_bool_decide as Hfeat.
  - destruct (summarize (get "true" m)) as [T| |]; simpl; try done.
    destruct (summarize (get "false" m)) as [F| |]; simpl; try done.
    intros (branches & Hall & ->)%summarize_split_branches _.
    exists branches. split; [|done]. simpl. unfold get. by simplify_map_eq.
  - intros [= <-]. simpl. intros Hc%bool_decide_eq_true_1. done.
Qed.

(** X8: a split node that [summarize] rewrites comes out as an object
    whose "children" is an array of branches (objects holding a guard "in"
    and a subtree "then"), without the fields "true", "false", "reference"
    and "relation", with a "type" field ([null] if it had none), and with
    every other field as it was. *)
Theorem summarize_split_shape (m : gmap string json) node1 :
  is_Some (m !! "feature") ->
  summarize (JObject m) = Ok node1 ->
  exists m1 branches,
    node1 = JObject m1 /\
    m1 !! "children" = Some (JArray branches) /\
    Forall is_branch branches /\
    m1 !! "true" = None /\ m1 !! "false" = None /\
    m1 !! "reference" = None /\ m1 !! "relation" = None /\
    m1 !! "type" = Some (get "type" m) /\
    forall key, key ∉ ["children"; "true"; "false"; "reference"; "relation"; "type"] ->
                m1 !! key = m !! key.
Proof.
  intros Hfeat. rewrite summarize_object, bool_decide_eq_true_2 by done.
  destruct (summarize (get "true" m)) as [T| |]; simpl; try done.
  destruct (summarize (get "false" m)) as [F| |]; simpl; try done.
  intros (branches & Hall & ->)%summarize_split_branches.
  eexists _, branches. split; [reflexivity|].
  repeat split; try done; try (by simplify_map_eq).
  - rewrite lookup_insert_ne, !lookup_delete_ne, touch_lookup by done.
    rewrite decide_True by done. unfold get. by simplify_map_eq.
  - intros key Hkey.
    repeat (apply not_elem_of_cons in Hkey as [? Hkey]).
    rewrite lookup_insert_ne, !lookup_delete_ne, touch_lookup by done.
    rewrite decide_False by done. by simplify_map_eq.
Qed.

Lemma summarize_split_shape_witness :
  exists m1 branches,
    doc_nary 1 "integral" [branch (JArray [JInt 5; JNull]) (doc_leaf 1);
                           branch (JArray [JNull; JInt 5]) (doc_leaf 0)] = JObject m1 /\
    m1 !! "children" = Some (JArray branches) /\
    Forall is_branch branches /\
    m1 !! "true" = None /\ m1 !! "false" = None /\
    m1 !! "reference" = None /\ m1 !! "relation" = None /\
    m1 !! "type" = Some (JString "integral") /\
    m1 !! "feature" = Some (JInt 1).
Proof.
  destruct (summarize_split_shape
              (<["feature" := JInt 1]> (<["type" := JString "integral"]>
                 (<["reference" := JInt 5]> (<["relation" := JString ">="]>
                 (<["true" := doc_leaf 1]> (<["false" := doc_leaf 0]> ∅))))))
              (doc_nary 1 "integral" [branch (JArray [JInt 5; JNull]) (doc_leaf 1);
                                      branch (JArray [JNull; JInt 5]) (doc_leaf 0)]))
    as (m1 & branches & Hdoc & Hchildren & Hall & Htrue & Hfalse & Href & Hrel & Htype & Hrest).
  - by eexists.
  - vm_compute. reflexivity.
  - exists m1, branches. repeat split; try done.
    rewrite Hrest; [done|].
    repeat (apply not_elem_of_cons; split; [done|]). apply not_elem_of_nil.
Defined.

Lemma mapM_cons_result {A B} (f : A -> result B) (x : A) (l : list A) :
  mapM f (x :: l) = y ← f x; k ← mapM f l; Ok (y :: k).
Proof. reflexivity. Qed.

Lemma promote_categorical condition g t :
  promote false false true condition (branch g t) = Ok [branch g t].
Proof. reflexivity. Qed.

Lemma promote_untyped condition g t :
  promote false false false condition (branch g t) = Ok [].
Proof. reflexivity. Qed.

Lemma mapM_promote_categorical condition (branches : list json) :
  Forall is_branch branches ->
  mapM (promote false false true condition) branches
  = Ok ((fun b => [b]) <$> branches).
Proof.
  induction 1 as [|b branches (g & t & ->) _ IH]; [done|].
  by rewrite mapM_cons_result, promote_categorical, IH.
Qed.

Lemma mapM_promote_untyped condition (branches : list json) :
  Forall is_branch branches ->
  mapM (promote false false false condition) branches
  = Ok ((fun _ => []) <$> branches).
Proof.
  induction 1 as [|b branches (g & t & ->) _ IH]; [done|].
  by rewrite mapM_cons_result, promote_untyped, IH.
Qed.

Lemma concat_nils {A B} (l : list A) : concat ((fun _ => @nil B) <$> l) = [].
Proof. induction l as [|x l IH]; [done|]. rewrite fmap_cons. simpl. by rewrite IH. Qed.

Lemma concat_units {A} (l : list A) : concat ((fun x => [x]) <$> l) = l.
Proof. induction l as [|x l IH]; [done|]. rewrite fmap_cons. simpl. by rewrite IH. Qed.

(** What one candidate child contributes under a categorical split and
    under a split of no domain type; [child] is a summarized document. *)
Lemma flatten_categorical feature guard child source :
  summarize source = Ok child ->
  flatten false false true feature
          (JObject (<["in" := guard]> (<["then" := child]> ∅)))
  = Ok (categorical_branches feature guard child).
Proof.
  intros Hsum. unfold flatten, categorical_branches, promoted.
  change (JObject (<["in" := guard]> (<["then" := child]> ∅))) with (branch guard child).
  rewrite at_key_branch_in, at_key_branch_then. simpl.
  destruct (contains "feature" child) eqn:Hc; simpl; [|done].
  destruct (json_eqb _ _); [|done].
  destruct (summarized_children _ _ Hsum Hc) as (branches & Hch & Hall).
  rewrite Hch. simpl. rewrite mapM_promote_categorical by done. simpl.
  by rewrite concat_units.
Qed.

Lemma flatten_untyped feature child source :
  summarize source = Ok child ->
  flatten false false false feature (JObject (<["then" := child]> ∅))
  = Ok (untyped_branches feature child).
Proof.
  intros Hsum. unfold flatten, untyped_branches, promoted.
  assert (Hin : at_key (JObject (<["then" := child]> ∅)) "in" = Ok JNull) by done.
  assert (Hthen : at_key (JObject (<["then" := child]> ∅)) "then" = Ok child) by done.
  rewrite Hin, Hthen. simpl.
  destruct (contains "feature" child) eqn:Hc; simpl; [|done].
  destruct (json_eqb _ _); [|done].
  destruct (summarized_children _ _ Hsum Hc) as (branches & Hch & Hall).
  rewrite Hch. simpl. rewrite mapM_promote_untyped by done. simpl.
  by rewrite concat_nils.
Qed.

(** [summarize_split] on a categorical node and on a node of no domain
    type, given the two summarized subtrees. *)
Lemma summarize_split_categorical (m : gmap string json) T F sourceT sourceF :
  m !! "type" = Some (JString "categorical") ->
  m !! "true" = Some T ->
  m !! "false" = Some F ->
  summarize sourceT = Ok T ->
  summarize sourceF = Ok F ->
  summarize_split m =
  Ok (JObject (<["children" :=
                 JArray (categorical_branches (get "feature" m) (get "reference" m) T ++
                         categorical_branches (get "feature" m) (JString "default") F)]>
               (delete "false" (delete "true" (delete "relation" (delete "reference" m)))))).
Proof.
  intros Htype Htrue Hfalse HT HF. unfold summarize_split.
  rewrite (touch_present "type" m) by (by rewrite Htype).
  assert (Hgt : get "type" m = JString "categorical") by (unfold get; by rewrite Htype).
  assert (Hgf : get "feature" (delete "false" (delete "true" (delete "relation"
                   (delete "reference" m)))) = get "feature" m).
  { unfold get. by rewrite !lookup_delete_ne by done. }
  assert (HgT : get "true" m = T) by (unfold get; by rewrite Htrue).
  assert (HgF : get "false" m = F) by (unfold get; by rewrite Hfalse).
  rewrite Hgt, Hgf, HgT, HgF. simpl json_eqb. cbv iota.
  rewrite (flatten_categorical _ _ _ sourceT HT).
  rewrite (flatten_categorical _ _ _ sourceF HF).
  reflexivity.
Qed.

Lemma summarize_split_untyped (m : gmap string json) T F sourceT sourceF :
  json_eqb (get "type" m) (JString "integral") = false ->
  json_eqb (get "type" m) (JString "rational") = false ->
  json_eqb (get "type" m) (JString "categorical") = false ->
  m !! "true" = Some T ->
  m !! "false" = Some F ->
  summarize sourceT = Ok T ->
  summarize sourceF = Ok F ->
  summarize_split m =
  Ok (JObject (<["children" :=
                 JArray (untyped_branches (get "feature" m) T ++
                         untyped_branches (get "feature" m) F)]>
               (delete "false" (delete "true" (delete "relation" (delete "reference"
                  (touch "type" m))))))).
Proof.
  intros Hint Hrat Hcat Htrue Hfalse HT HF. unfold summarize_split.
  assert (Hgt : get "type" (touch "type" m) = get "type" m).
  { unfold get. rewrite touch_lookup. by rewrite decide_True. }
  assert (Hgf : get "feature" (delete "false" (delete "true" (delete "relation"
                   (delete "reference" (touch "type" m))))) = get "feature" m).
  { unfold get. rewrite !lookup_delete_ne, touch_lookup by done.
    by rewrite decide_False. }
  assert (HgT : get "true" (touch "type" m) = T).
  { unfold get. rewrite touch_lookup, decide_False by done. by rewrite Htrue. }
  assert (HgF : get "false" (touch "type" m) = F).
  { unfold get. rewrite touch_lookup, decide_False by done. by rewrite Hfalse. }
  rewrite Hgt, Hgf, HgT, HgF, Hint, Hrat, Hcat. cbv iota.
  rewrite (flatten_untyped _ _ sourceT HT).
  rewrite (flatten_untyped _ _ sourceF HF).
  reflexivity.
Qed.

(** X9: summarizing a split on a categorical feature guards the "true"
    child with the reference and the "false" child with the string
    "default"; a child that is itself a split on the same feature (its
    "feature" field equals the node's) is replaced by its own branches,
    guards unchanged. *)
Theorem summarize_categorical_guards (m : gmap string json) T F :
  is_Some (m !! "feature") ->
  m !! "type" = Some (JString "categorical") ->
  summarize (get "true" m) = Ok T ->
  summarize (get "false" m) = Ok F ->
  exists m',
    summarize (JObject m) = Ok (JObject m') /\
    m' !! "children" =
      Some (JArray (categorical_branches (get "feature" m) (get "reference" m) T ++
                    categorical_branches (get "feature" m) (JString "default") F)).
Proof.
  intros Hfeat Htype HT HF.
  rewrite summarize_object, bool_decide_eq_true_2 by done.
  rewrite HT. simpl. rewrite HF. simpl.
  erewrite (summarize_split_categorical _ T F); try done; try (by simplify_map_eq).
  eexists. split; [reflexivity|]. simplify_map_eq.
  unfold get. by simplify_map_eq.
Qed.

(** X10: summarizing a split whose "type" is none of "integral",
    "rational" and "categorical" (as when the field is missing) gives
    every kept child a [null] guard; and a child that is itself a split
    on the same feature contributes nothing: its branches, and the
    subtrees under them, are left out of the result. *)
Theorem summarize_untyped_drops (m : gmap string json) T F :
  is_Some (m !! "feature") ->
  json_eqb (get "type" m) (JString "integral") = false ->
  json_eqb (get "type" m) (JString "rational") = false ->
  json_eqb (get "type" m) (JString "categorical") = false ->
  summarize (get "true" m) = Ok T ->
  summarize (get "false" m) = Ok F ->
  exists m',
    summarize (JObject m) = Ok (JObject m') /\
    m' !! "children" =
      Some (JArray (untyped_branches (get "feature" m) T ++
                    untyped_branches (get "feature" m) F)).
Proof.
  intros Hfeat Hint Hrat Hcat HT HF.
  rewrite summarize_object, bool_decide_eq_true_2 by done.
  rewrite HT. simpl. rewrite HF. simpl.
  assert (Hty : get "type" (<["false" := F]> (<["true" := T]> m)) = get "type" m)
    by (unfold get; by simplify_map_eq).
  erewrite (summarize_split_untyped _ T F); try done;
    try (by simplify_map_eq); try (by rewrite Hty).
  eexists. split; [reflexivity|]. simplify_map_eq.
  unfold get. by simplify_map_eq.
Qed.

Lemma summarize_categorical_guards_witness :
  exists m',
    summarize (doc_split 2 "categorical" (JString "red")
                 (doc_split 2 "categorical" (JString "blue") (doc_leaf 1) (doc_leaf 2))
                 (doc_leaf 0)) = Ok (JObject m') /\
    m' !! "children" =
      Some (JArray [branch (JString "blue") (doc_leaf 1);
                    branch (JString "default") (doc_leaf 2);
                    branch (JString "default") (doc_leaf 0)]).
Proof.
  destruct (summarize_categorical_guards
              (<["feature" := JInt 2]> (<["type" := JString "categorical"]>
                 (<["reference" := JString "red"]> (<["relation" := JString ">="]>
                 (<["true" := doc_split 2 "categorical" (JString "blue")
                                (doc_leaf 1) (doc_leaf 2)]>
                 (<["false" := doc_leaf 0]> ∅))))))
              (doc_nary 2 "categorical" [branch (JString "blue") (doc_leaf 1);
                                         branch (JString "default") (doc_leaf 2)])
              (doc_leaf 0))
    as (m' & Hrun & Hchildren).
  - by eexists.
  - vm_compute. reflexivity.
  - vm_compute. reflexivity.
  - vm_compute. reflexivity.
  - exists m'. split; [exact Hrun|]. rewrite Hchildren. vm_compute. reflexivity.
Defined.

Lemma summarize_untyped_drops_witness :
  exists m',
    summarize (doc_plain 4 3 (doc_plain 4 3 (doc_leaf 1) (doc_leaf 2)) (doc_leaf 0))
      = Ok (JObject m') /\
    m' !! "children" = Some (JArray [branch JNull (doc_leaf 0)]).
Proof.
  destruct (summarize_untyped_drops
              (<["feature" := JInt 4]> (<["orig_feature" := JInt 3]>
                 (<["true" := doc_plain 4 3 (doc_leaf 1) (doc_leaf 2)]>
                 (<["false" := doc_leaf 0]> ∅))))
              (JObject (<["feature" := JInt 4]> (<["orig_feature" := JInt 3]>
                 (<["type" := JNull]>
                 (<["children" := JArray [branch JNull (doc_leaf 1);
                                          branch JNull (doc_leaf 2)]]> ∅)))))
              (doc_leaf 0))
    as (m' & Hrun & Hchildren).
  - by eexists.
  - reflexivity.
  - reflexivity.
  - reflexivity.
  - vm_compute. reflexivity.
  - vm_compute. reflexivity.
  - exists m'. split; [exact Hrun|]. rewrite Hchildren. vm_compute. reflexivity.
Defined.

Lemma bind_Ok {A B} (a : A) (f : A -> result B) : (Ok a ≫= f) = f a.
Proof. reflexivity. Qed.

Section NaryDocument.
Context {Bitmask : Type}.
Implicit Types (t : Model Bitmask) (g : float -> float).

Lemma promoted_nary g bf t :
  promoted (JInt bf) (JObject (nary_fields g t)) = splits_on bf t.
Proof. by destruct t. Qed.

(** Summarizing the plain document of a tree. *)
Lemma summarize_plain_fields g t :
  summarize (JObject (plain_fields g t)) = Ok (JObject (nary_fields g t)).
Proof.
  induction t as [bt l c s|bf f n IHn p IHp].
  - rewrite summarize_object. by rewrite bool_decide_eq_false_2 by (by intros [? ?]).
  - rewrite summarize_object, bool_decide_eq_true_2 by (by eexists).
    assert (HgT : get "true" (plain_fields g (Split bf f n p)) = JObject (plain_fields g p))
      by done.
    assert (HgF : get "false" (plain_fields g (Split bf f n p)) = JObject (plain_fields g n))
      by done.
    rewrite HgT, HgF, IHp, bind_Ok, IHn, bind_Ok.
    rewrite (summarize_split_untyped
               (<["false" := JObject (nary_fields g n)]>
                  (<["true" := JObject (nary_fields g p)]> (plain_fields g (Split bf f n p))))
               (JObject (nary_fields g p)) (JObject (nary_fields g n))
               (JObject (plain_fields g p)) (JObject (plain_fields g n)))
      by (done || by simplify_map_eq).
    unfold untyped_branches.
    assert (Hgf : get "feature" (<["false" := JObject (nary_fields g n)]>
                     (<["true" := JObject (nary_fields g p)]>
                        (plain_fields g (Split bf f n p)))) = JInt bf) by done.
    rewrite Hgf, !promoted_nary. reflexivity.
Qed.

(** X11: with the N-ary output switched on, a tree none of whose splits
    has a translator table is serialized into its N-ary document: every
    split gets a "type" that is [null] and branches whose guards are
    [null], the "true" child first; a child that splits on the same binary
    feature as its parent does not appear in the document, nor does
    anything below it. *)
Theorem serialized_document_nary (m : TranslatedModel Bitmask) (d : Dataset Bitmask) :
  untranslated m = true ->
  non_binary (m_config d) = true ->
  serialized_document m d =
  Ok (JObject (nary_fields (fun _ => regularization (m_config d)) (forget m))).
Proof.
  intros Hun Hnary. unfold serialized_document, to_json.
  rewrite _to_json_empty, bind_Ok, Hnary by done.
  apply summarize_plain_fields.
Qed.

End NaryDocument.

Lemma serialized_document_nary_witness :
  serialized_document rows_tree_repeated rows_dataset_nary =
  Ok (JObject (<["feature" := JInt 3]>
              (<["orig_feature" := JInt 1]>
              (<["type" := JNull]>
              (<["children" := JArray [branch JNull (doc_leaf 0)]]> ∅))))).
Proof.
  rewrite (serialized_document_nary rows_tree_repeated rows_dataset_nary eq_refl eq_refl).
  vm_compute. reflexivity.
Defined.

Lemma json_size_lookup (m : gmap string json) key v :
  m !! key = Some v -> (json_size v < json_size (JObject m))%nat.
Proof.
  intros Hv. simpl.
  rewrite (map_fold_delete_L _ _ key v m); [|intros; lia|done].
  apply Nat.lt_succ_r, Nat.le_add_r.
Qed.

Lemma json_size_get (m : gmap string json) key :
  (json_size (get key m) < json_size (JObject m))%nat.
Proof.
  unfold get. destruct (m !! key) as [v|] eqn:Hv.
  - by eapply json_size_lookup.
  - simpl. lia.
Qed.

Lemma only_type_error_bind {A B} (r : result A) (f : A -> result B) :
  only_type_error r -> (forall a, only_type_error (f a)) -> only_type_error (r ≫= f).
Proof. destruct r; simpl; [by intros _ Hf|done|done]. Qed.

Lemma only_type_error_at_key j key : only_type_error (at_key j key).
Proof. by destruct j. Qed.

Lemma only_type_error_at_idx j idx : only_type_error (at_idx j idx).
Proof. by destruct j. Qed.

Lemma only_type_error_set_idx j idx v : only_type_error (set_idx j idx v).
Proof. by destruct j. Qed.

Lemma only_type_error_intersect src dest : only_type_error (intersect src dest).
Proof.
  unfold intersect.
  apply only_type_error_bind; [apply only_type_error_at_idx|]. intros s0.
  apply only_type_error_bind.
  - destruct (negb (is_null s0)); [|done].
    apply only_type_error_bind; [apply only_type_error_at_idx|]. intros d0.
    destruct (negb (is_null d0)); apply only_type_error_set_idx.
  - intros dest'.
    apply only_type_error_bind; [apply only_type_error_at_idx|]. intros s1.
    destruct (negb (is_null s1)); [|done].
    apply only_type_error_bind; [apply only_type_error_at_idx|]. intros d1.
    destruct (negb (is_null d1)); apply only_type_error_set_idx.
Qed.

Lemma only_type_error_promote integral rational categorical condition sub :
  only_type_error (promote integral rational categorical condition sub).
Proof.
  unfold promote.
  apply only_type_error_bind; [apply only_type_error_at_key|]. intros subcondition.
  apply only_type_error_bind; [apply only_type_error_at_key|]. intros grandchild.
  destruct (integral || rational).
  - apply only_type_error_bind; [apply only_type_error_at_idx|]. intros s0.
    apply only_type_error_bind; [apply only_type_error_at_idx|]. intros s1.
    apply only_type_error_bind; [apply only_type_error_intersect|]. done.
  - by destruct categorical.
Qed.

Lemma only_type_error_mapM {A B} (f : A -> result B) (l : list A) :
  (forall x, only_type_error (f x)) -> only_type_error (mapM f l).
Proof.
  intros Hf. induction l as [|x l IH]; [done|].
  rewrite mapM_cons_result.
  apply only_type_error_bind; [apply Hf|]. intros y.
  apply only_type_error_bind; [apply IH|]. done.
Qed.

Lemma only_type_error_flatten integral rational categorical feature it :
  only_type_error (flatten integral rational categorical feature it).
Proof.
  unfold flatten.
  apply only_type_error_bind; [apply only_type_error_at_key|]. intros condition.
  apply only_type_error_bind; [apply only_type_error_at_key|]. intros child.
  destruct (_ && _); [|done].
  apply only_type_error_bind; [|done].
  apply only_type_error_mapM. intros sub. apply only_type_error_promote.
Qed.

Lemma only_type_error_summarize_split (m : gmap string json) :
  only_type_error (summarize_split m).
Proof.
  unfold summarize_split.
  destruct (json_eqb _ _), (json_eqb _ _), (json_eqb _ _);
    (apply only_type_error_bind; [apply only_type_error_flatten|]; intros from0;
     apply only_type_error_bind; [apply only_type_error_flatten|]; done).
Qed.

(** X12: whatever the document, [summarize] ends well or with a
    [type_error] of the JSON library: it has no undefined behaviour and
    raises no other exception.  (A [type_error] does occur, on
    [doc_mixed].) *)
Theorem summarize_only_type_error node :
  only_type_error (summarize node) /\ summarize doc_mixed = Throw type_error.
Proof.
  split; [|vm_compute; reflexivity].
  remember (json_size node) as size eqn:Hsize.
  revert node Hsize.
  induction (lt_wf size) as [size _ IH]. intros node ->.
  destruct node as [| | | | | |m]; try done.
  rewrite summarize_object. case_bool_decide; [|done].
  apply only_type_error_bind.
  { eapply IH; [apply json_size_get|reflexivity]. }
  intros T. apply only_type_error_bind.
  { eapply IH; [apply json_size_get|reflexivity]. }
  intros F. apply only_type_error_summarize_split.
Qed.

(** X13: on intervals whose bounds are integers or [null], [intersect]
    returns the interval that admits exactly the integers both operands
    admit. *)
Theorem intersect_integer_intervals plo phi lo hi :
  is_int_bound plo = true -> is_int_bound phi = true ->
  is_int_bound lo = true -> is_int_bound hi = true ->
  exists l h,
    intersect (JArray [plo; phi]) (JArray [lo; hi]) = Ok (JArray [l; h]) /\
    is_int_bound l = true /\ is_int_bound h = true /\
    forall x, interval_admits l h x <->
              interval_admits plo phi x /\ interval_admits lo hi x.
Proof.
  intros Hplo Hphi Hlo Hhi.
  assert (Hbound : forall j, is_int_bound j = true -> is_bound j = true)
    by (by intros []).
  rewrite intersect_interval by (by apply Hbound).
  eexists _, _. split; [reflexivity|].
  unfold meet_lower, meet_upper, larger_bound, smaller_bound, interval_admits.
  destruct plo as [| |a| | | |], lo as [| |a'| | | |]; try done;
    destruct phi as [| |b| | | |], hi as [| |b'| | | |]; try done; simpl;
    (split; [done|]); (split; [done|]); intros x; lia.
Qed.

Lemma intersect_integer_intervals_witness :
  exists l h,
    intersect (JArray [JInt 5; JNull]) (JArray [JInt 3; JInt 8]) = Ok (JArray [l; h]) /\
    is_int_bound l = true /\ is_int_bound h = true /\
    forall x, interval_admits l h x <->
              interval_admits (JInt 5) JNull x /\ interval_admits (JInt 3) (JInt 8) x.
Proof. by apply intersect_integer_intervals. Defined.






